(** * EC2 failover controller: a shallow embedding of [ec2_controller.py]

    The controller watches one EC2 instance, decides each cycle whether it must
    be replaced, launches a replacement in another availability zone,
    repoints every route table of the VPC at it and terminates the old
    instance.

    The Python functions are embedded as computations in a state-and-exception
    monad over a [world]: a model of the EC2 account (the part of boto3 the
    script talks to), the files on disk, the answers of the environment
    (transient API failures, outcomes of the [ping] subprocess, random
    numbers) and the trace of every external call the script has made.
    Output written with [print] is not part of the model. *)

From stdpp Require Import base gmap strings list fin_maps pretty.
From Stdlib Require Import ZArith Lia Ascii.

Local Open Scope string_scope.
Local Open Scope Z_scope.
Local Open Scope list_scope.

(** ** Python values and exceptions *)

(** The exceptions the script can meet.  All of them derive from Python's
    [Exception], so [except Exception] and a bare [except:] catch every one of
    them.  [KeyboardInterrupt] is asynchronous and is not modelled. *)
Inductive exn : Type :=
  | ClientError (code : string)      (* botocore.exceptions.ClientError *)
  | WaiterError (waiter : string)    (* botocore.exceptions.WaiterError *)
  | IndexError                       (* [l[0]] on an empty list *)
  | KeyError (key : string)          (* [d[k]] on a missing key *)
  | TypeError                        (* [None[k]] *)
  | ValueError                       (* ipaddress: malformed network *)
  | TimeoutExpired                   (* subprocess.TimeoutExpired *)
  | OSError                          (* process launch or file open failed *)
  | PyException (msg : string).      (* [raise Exception(msg)] *)

Inductive result (A : Type) : Type :=
  | Ok (a : A)
  | Raise (e : exn).
Arguments Ok {A} a.
Arguments Raise {A} e.

Definition is_ok {A} (r : result A) : bool :=
  match r with Ok _ => true | Raise _ => false end.

(** ** The EC2 account *)

(** What [describe_instances] reports for one instance.  [PrivateIpAddress]
    and [SubnetId] are absent from the description of an instance that is
    not attached to a subnet (a terminated one, for example). *)
Record instance : Type := Instance {
  PrivateIpAddress : option string;
  AvailabilityZone : string;
  StateName : string;
  ImageId : string;
  InstanceType : string;
  SubnetId : option string;
  NetworkInterfaces : list string
}.

(** A subnet's [CidrBlock], already parsed: the address as a 32-bit number
    and the prefix length. *)
Record cidr_block : Type := Cidr { cidr_addr : Z; cidr_len : Z }.

Record subnet : Type := Subnet {
  sn_id : string;
  sn_vpc : string;
  sn_az : string;
  sn_cidr : cidr_block
}.

(** A route table: the VPC it belongs to and its routes, keyed by destination
    CIDR (EC2 identifies a route by its table and its destination), each
    pointing at an instance id. *)
Record route_table : Type := RouteTable {
  rt_vpc : string;
  rt_routes : gmap string string
}.

Record cloud : Type := Cloud {
  instances : gmap string instance;
  subnets : list subnet;
  route_tables : gmap string route_table;
  zones : list string;
  enis : gmap string bool;          (* network interface -> SourceDestCheck *)
  next_id : N                       (* supply of fresh resource ids *)
}.

(** ** What the script sends to the outside *)

(** The rendered user data is kept symbolic: the template text read from the
    file and the two variables handed to Jinja2. *)
Record user_data : Type := UserData {
  ud_template : string;
  AZ_SUBNET_DEF_ROUTE : Z;
  ROUTE_DESTINATION : string
}.

Record run_request : Type := RunRequest {
  rq_ImageId : string;
  rq_InstanceType : string;
  rq_KeyName : string;
  rq_SecurityGroupId : string;
  rq_SubnetId : string;
  rq_UserData : user_data;
  rq_Name : string
}.

Inductive call : Type :=
  | DescribeInstances (instance_id : string)
  | DescribeSubnetsById (subnet_id : string)
  | DescribeSubnetsFilter (vpc_id : option string) (az : string)
  | DescribeRouteTables (vpc_id : string)
  | DescribeAvailabilityZones
  | RunInstances (req : run_request)
  | WaitInstanceRunning (instance_id : string)
  | WaitInstanceStatusOk (instance_id : string)
  | ModifySourceDestCheck (eni_id : string) (value : bool)
  | DeleteRoute (rt_id : string) (cidr : string)
  | CreateRoute (rt_id : string) (cidr : string) (instance_id : string)
  | TerminateInstances (instance_id : string)
  | SubprocessRun (argv : list string) (timeout : Z)
  | OpenFile (path : string)
  | Sleep (seconds : Z).

(** An entry of the trace: the call and whether it returned ([true]) or
    raised ([false]). *)
Record event : Type := Ev { ev_call : call; ev_ok : bool }.

(** How one run of the [ping] subprocess ends. *)
Inductive ping_outcome : Type :=
  | Exited (returncode : Z)
  | TimedOut
  | LaunchFailed.

Global Instance ping_outcome_eq_dec : EqDecision ping_outcome.
Proof. solve_decision. Defined.

(** ** The world *)

Record world : Type := World {
  cloud_of : cloud;
  files : gmap string string;
  faults : list bool;           (* one per EC2 API call; [true] = the call fails *)
  pings : list ping_outcome;    (* one per [ping] subprocess *)
  rng : list Z;                 (* one per [random.randint] *)
  trace : list event            (* oldest call first *)
}.

Definition M (A : Type) : Type := world → result A * world.

Global Instance M_ret : MRet M := λ A a w, (Ok a, w).

Global Instance M_bind : MBind M := λ A B f m w,
  match m w with
  | (Ok a, w') => f a w'
  | (Raise e, w') => (Raise e, w')
  end.

Definition raise {A} (e : exn) : M A := λ w, (Raise e, w).

(** [try: m except Exception as e: h e] (also the bare [except:]). *)
Definition try_except {A} (m : M A) (h : exn → M A) : M A := λ w,
  match m w with
  | (Ok a, w') => (Ok a, w')
  | (Raise e, w') => h e w'
  end.

Definition exec {A} (m : M A) (w : world) : world := (m w).2.

Definition log (e : event) (w : world) : world :=
  World (cloud_of w) (files w) (faults w) (pings w) (rng w) (trace w ++ [e]).

(** One EC2 API call.  The environment decides first whether the call fails
    for a reason of its own (throttling, network, credentials); otherwise
    [body] is what EC2 does.  Either way the call is recorded. *)
Definition api {A} (c : call) (err : exn) (body : cloud → result A * cloud) : M A := λ w,
  match faults w with
  | true :: fs =>
      (Raise err,
       World (cloud_of w) (files w) fs (pings w) (rng w) (trace w ++ [Ev c false]))
  | fs =>
      let '(r, cl) := body (cloud_of w) in
      (r, World cl (files w) (tail fs) (pings w) (rng w) (trace w ++ [Ev c (is_ok r)]))
  end.

Definition transient : exn := ClientError "RequestError".

(** [l[0]] *)
Definition index0 {A} (l : list A) : M A :=
  match l with
  | x :: _ => mret x
  | [] => raise IndexError
  end.

(** [d[key]] on a key that may be missing. *)
Definition getitem {A} (key : string) (o : option A) : M A :=
  match o with
  | Some x => mret x
  | None => raise (KeyError key)
  end.

(** [time.sleep(seconds)] *)
Definition sleep (seconds : Z) : M unit := λ w, (Ok (), log (Ev (Sleep seconds) true) w).

(** ** EC2 operations used by the script *)

(** The boto3 client calls of the script, each as an [api] call on the
    account: what EC2 answers and how the account changes when the call is
    not hit by a transient failure.  A call that is refused (unknown id,
    missing or duplicate route) raises [ClientError] and changes nothing. *)
Module EC2.

Definition describe_instances (instance_id : string) : M instance :=
  api (DescribeInstances instance_id) transient (λ cl,
    match instances cl !! instance_id with
    | Some i => (Ok i, cl)
    | None => (Raise (ClientError "InvalidInstanceID.NotFound"), cl)
    end).

Definition describe_subnets_by_id (subnet_id : string) : M (list subnet) :=
  api (DescribeSubnetsById subnet_id) transient (λ cl,
    match filter (λ s, sn_id s = subnet_id) (subnets cl) with
    | [] => (Raise (ClientError "InvalidSubnetID.NotFound"), cl)
    | l => (Ok l, cl)
    end).

(** [describe_subnets(Filters=...)] with an optional [vpc-id] filter and an
    [availability-zone] filter. *)
Definition matches_filter (vpc_id : option string) (az : string) (s : subnet) : Prop :=
  match vpc_id with Some v => sn_vpc s = v | None => True end ∧ sn_az s = az.

Global Instance matches_filter_dec vpc_id az s : Decision (matches_filter vpc_id az s).
Proof. unfold matches_filter. destruct vpc_id; apply _. Defined.

Definition describe_subnets_filter (vpc_id : option string) (az : string) : M (list subnet) :=
  api (DescribeSubnetsFilter vpc_id az) transient (λ cl,
    (Ok (filter (matches_filter vpc_id az) (subnets cl)), cl)).

Definition describe_route_tables (vpc_id : string) : M (list (string * route_table)) :=
  api (DescribeRouteTables vpc_id) transient (λ cl,
    (Ok (filter (λ p, rt_vpc p.2 = vpc_id) (map_to_list (route_tables cl))), cl)).

Definition describe_availability_zones : M (list string) :=
  api DescribeAvailabilityZones transient (λ cl, (Ok (zones cl), cl)).

Definition fresh_instance_id (cl : cloud) : string := "i-" +:+ pretty (next_id cl).
Definition fresh_eni_id (cl : cloud) : string := "eni-" +:+ pretty (next_id cl).

(** [run_instances]: a new instance, pending, in the subnet's zone, with one
    network interface whose source/destination check is on. *)
Definition run_instances (req : run_request) : M string :=
  api (RunInstances req) transient (λ cl,
    match filter (λ s, sn_id s = rq_SubnetId req) (subnets cl) with
    | [] => (Raise (ClientError "InvalidSubnetID.NotFound"), cl)
    | s :: _ =>
        let i := Instance None (sn_az s) "pending" (rq_ImageId req)
                   (rq_InstanceType req) (Some (sn_id s)) [fresh_eni_id cl] in
        (Ok (fresh_instance_id cl),
         Cloud (<[fresh_instance_id cl := i]> (instances cl)) (subnets cl)
           (route_tables cl) (zones cl)
           (<[fresh_eni_id cl := true]> (enis cl)) (N.succ (next_id cl)))
    end).

Definition set_state (st : string) (i : instance) : instance :=
  Instance (PrivateIpAddress i) (AvailabilityZone i) st (ImageId i)
    (InstanceType i) (SubnetId i) (NetworkInterfaces i).

Definition with_instances (f : gmap string instance → gmap string instance) (cl : cloud)
    : cloud :=
  Cloud (f (instances cl)) (subnets cl) (route_tables cl) (zones cl) (enis cl) (next_id cl).

Definition with_route_tables (f : gmap string route_table → gmap string route_table)
    (cl : cloud) : cloud :=
  Cloud (instances cl) (subnets cl) (f (route_tables cl)) (zones cl) (enis cl) (next_id cl).

Definition with_enis (f : gmap string bool → gmap string bool) (cl : cloud) : cloud :=
  Cloud (instances cl) (subnets cl) (route_tables cl) (zones cl) (f (enis cl)) (next_id cl).

(** The [instance_running] waiter returns once the instance is running. *)
Definition wait_instance_running (instance_id : string) : M unit :=
  api (WaitInstanceRunning instance_id) (WaiterError "instance_running") (λ cl,
    match instances cl !! instance_id with
    | Some i => (Ok (), with_instances (<[instance_id := set_state "running" i]>) cl)
    | None => (Raise (WaiterError "instance_running"), cl)
    end).

(** The [instance_status_ok] waiter returns once the status checks pass. *)
Definition wait_instance_status_ok (instance_id : string) : M unit :=
  api (WaitInstanceStatusOk instance_id) (WaiterError "instance_status_ok") (λ cl,
    match instances cl !! instance_id with
    | Some i => (Ok (), cl)
    | None => (Raise (WaiterError "instance_status_ok"), cl)
    end).

Definition modify_network_interface_attribute (eni_id : string) (value : bool) : M unit :=
  api (ModifySourceDestCheck eni_id value) transient (λ cl,
    match enis cl !! eni_id with
    | Some _ => (Ok (), with_enis (<[eni_id := value]>) cl)
    | None => (Raise (ClientError "InvalidNetworkInterfaceID.NotFound"), cl)
    end).

Definition set_routes (r : gmap string string) (t : route_table) : route_table :=
  RouteTable (rt_vpc t) r.

(** [delete_route] fails when the table has no route to the destination. *)
Definition delete_route_body (rt_id cidr : string) (cl : cloud) : result unit * cloud :=
  match route_tables cl !! rt_id with
  | None => (Raise (ClientError "InvalidRouteTableID.NotFound"), cl)
  | Some t =>
      match rt_routes t !! cidr with
      | None => (Raise (ClientError "InvalidRoute.NotFound"), cl)
      | Some _ =>
          (Ok (), with_route_tables (<[rt_id := set_routes (delete cidr (rt_routes t)) t]>) cl)
      end
  end.

Definition delete_route (rt_id cidr : string) : M unit :=
  api (DeleteRoute rt_id cidr) transient (delete_route_body rt_id cidr).

(** [create_route] fails when the table already has a route to the
    destination, or when the instance does not exist. *)
Definition create_route_body (rt_id cidr instance_id : string) (cl : cloud)
    : result unit * cloud :=
  match route_tables cl !! rt_id with
  | None => (Raise (ClientError "InvalidRouteTableID.NotFound"), cl)
  | Some t =>
      match rt_routes t !! cidr, instances cl !! instance_id with
      | Some _, _ => (Raise (ClientError "RouteAlreadyExists"), cl)
      | None, None => (Raise (ClientError "InvalidInstanceID.NotFound"), cl)
      | None, Some _ =>
          (Ok (),
           with_route_tables (<[rt_id := set_routes (<[cidr := instance_id]> (rt_routes t)) t]>) cl)
      end
  end.

Definition create_route (rt_id cidr instance_id : string) : M unit :=
  api (CreateRoute rt_id cidr instance_id) transient (create_route_body rt_id cidr instance_id).

Definition terminate_instances (instance_id : string) : M unit :=
  api (TerminateInstances instance_id) transient (λ cl,
    match instances cl !! instance_id with
    | Some i => (Ok (), with_instances (<[instance_id := set_state "shutting-down" i]>) cl)
    | None => (Raise (ClientError "InvalidInstanceID.NotFound"), cl)
    end).

End EC2.

(** ** The script *)

(** The dictionary returned by [get_instance_info]. *)
Record instance_info : Type := InstanceInfo {
  info_ip : option string;
  info_az : string;
  info_state : string;
  info_ami_id : string;
  info_instance_type : string;
  info_subnet_id : string
}.

(** The four keys of that dictionary which are read once a replacement has
    been decided ([az], [subnet_id], [ami_id], [instance_type]); the
    dictionary built by the script when the instance could not be described
    has only these. *)
Record launch_info : Type := LaunchInfo {
  li_az : string;
  li_subnet_id : string;
  li_ami_id : string;
  li_instance_type : string
}.

Definition launch_info_of (i : instance_info) : launch_info :=
  LaunchInfo (info_az i) (info_subnet_id i) (info_ami_id i) (info_instance_type i).

(** The command line. *)
Record arguments : Type := Args {
  instance_id : string;
  security_group : string;
  keypair : string;
  user_data_file : string;
  route_destination : string
}.

(** [subprocess.run(argv, capture_output=True, text=True, timeout=...)]:
    the return code, or [TimeoutExpired], or an [OSError] when the program
    cannot be started.  Once the recorded outcomes are used up, the
    process exits with 0. *)
Definition next_ping (w : world) : ping_outcome := hd (Exited 0) (pings w).

Definition subprocess_run (argv : list string) (timeout : Z) : M Z := λ w,
  let c := SubprocessRun argv timeout in
  let w' ok := World (cloud_of w) (files w) (faults w) (tail (pings w)) (rng w)
                 (trace w ++ [Ev c ok]) in
  match next_ping w with
  | Exited returncode => (Ok returncode, w' true)
  | TimedOut => (Raise TimeoutExpired, w' false)
  | LaunchFailed => (Raise OSError, w' false)
  end.

(** [ping_instance], lines 17-37. *)
Definition ping_instance (ip : string) : M bool :=
  try_except
    (returncode ← subprocess_run ["ping"; "-c"; "1"; "-W"; "2"; ip] 5;
     if decide (returncode = 0) then mret true else mret false)
    (λ _, mret false).

(** The body of the [try] of [get_instance_info], lines 49-60.  The
    dictionary is built with [instance.get('PrivateIpAddress')], which
    tolerates a missing key, and [instance['SubnetId']], which does not. *)
Definition get_instance_info_body (instance_id : string) : M (option instance_info) :=
  instance ← EC2.describe_instances instance_id;
  subnet_id ← getitem "SubnetId" (SubnetId instance);
  mret (Some (InstanceInfo (PrivateIpAddress instance) (AvailabilityZone instance)
                (StateName instance) (ImageId instance) (InstanceType instance)
                subnet_id)).

(** [get_instance_info], lines 39-63.  The client is created outside the
    [try]; creating it touches no network and is taken to succeed. *)
Definition get_instance_info (instance_id : string) : M (option instance_info) :=
  try_except (get_instance_info_body instance_id) (λ _, mret None).

(** [ipaddress.IPv4Network(cidr).network_address]: the prefix length must be
    in 0..32, the address a 32-bit number with no host bit set. *)
Definition IPv4Network (c : cidr_block) : M Z :=
  if decide (0 ≤ cidr_len c ≤ 32 ∧ 0 ≤ cidr_addr c < 2 ^ 32) then
    if decide (Z.land (cidr_addr c) (2 ^ (32 - cidr_len c) - 1) = 0)
    then mret (cidr_addr c)
    else raise ValueError
  else raise ValueError.

(** [IPv4Address + n] *)
Definition IPv4Address_add (a n : Z) : M Z :=
  if decide (0 ≤ a + n < 2 ^ 32) then mret (a + n) else raise ValueError.

(** [get_subnet_gateway], lines 65-71. *)
Definition get_subnet_gateway (subnet_id : string) : M Z :=
  l ← EC2.describe_subnets_by_id subnet_id;
  subnet ← index0 l;
  network_address ← IPv4Network (sn_cidr subnet);
  IPv4Address_add network_address 1.

(** [get_other_azs], lines 73-77. *)
Definition get_other_azs (current_az : string) : M (list string) :=
  azs ← EC2.describe_availability_zones;
  mret (filter (λ zone_name, zone_name ≠ current_az) azs).

(** [get_subnet_in_az], lines 79-97. *)
Definition get_subnet_in_az (target_az original_subnet_id : string) : M (option string) :=
  l ← EC2.describe_subnets_by_id original_subnet_id;
  s ← index0 l;
  let vpc_id := sn_vpc s in
  l' ← EC2.describe_subnets_filter (Some vpc_id) target_az;
  match l' with
  | s' :: _ => mret (Some (sn_id s'))
  | [] => mret None
  end.

(** [get_route_tables], lines 99-112. *)
Definition get_route_tables (subnet_id : string) : M (list string) :=
  l ← EC2.describe_subnets_by_id subnet_id;
  s ← index0 l;
  let vpc_id := sn_vpc s in
  rts ← EC2.describe_route_tables vpc_id;
  mret (rts.*1).

(** The [for] loop of [update_routes], lines 129-149. *)
Fixpoint route_loop (route_table_ids : list string) (new_instance_id destination_cidr : string)
    : M unit :=
  match route_table_ids with
  | [] => mret ()
  | rt_id :: rest =>
      try_except (EC2.delete_route rt_id destination_cidr) (λ _, mret ());;
      try_except (EC2.create_route rt_id destination_cidr new_instance_id) (λ _, mret ());;
      route_loop rest new_instance_id destination_cidr
  end.

(** Lines 119-125 of [update_routes]: the subnet whose VPC is reconciled.
    [new_info['subnet_id']] raises [TypeError] when [new_info] is [None]. *)
Definition routes_subnet (old_instance_id new_instance_id : string) : M string :=
  old_info ← get_instance_info old_instance_id;
  match old_info with
  | Some i => mret (info_subnet_id i)
  | None =>
      new_info ← get_instance_info new_instance_id;
      match new_info with
      | Some i => mret (info_subnet_id i)
      | None => raise TypeError
      end
  end.

(** [update_routes], lines 114-149. *)
Definition update_routes (old_instance_id new_instance_id destination_cidr : string) : M unit :=
  subnet_id ← routes_subnet old_instance_id new_instance_id;
  route_table_ids ← get_route_tables subnet_id;
  route_loop route_table_ids new_instance_id destination_cidr.

(** [open(path).read()] *)
Definition read_file (path : string) : M string := λ w,
  match files w !! path with
  | Some s => (Ok s, log (Ev (OpenFile path) true) w)
  | None => (Raise OSError, log (Ev (OpenFile path) false) w)
  end.

(** [render_user_data], lines 151-160. *)
Definition render_user_data (template_file : string) (az_subnet_gateway : Z)
    (route_destination : string) : M user_data :=
  template_content ← read_file template_file;
  mret (UserData template_content az_subnet_gateway route_destination).

(** [random.randint(lo, hi)] *)
Definition randint (lo hi : Z) : M Z := λ w,
  (Ok (lo + hd 0 (rng w) `mod` (hi - lo + 1)),
   World (cloud_of w) (files w) (faults w) (pings w) (tail (rng w)) (trace w)).

(** [launch_instance_in_az], lines 162-219.  [not target_subnet] holds for
    [None] and for the empty string. *)
Definition launch_instance_in_az (info : launch_info) (target_az security_group keypair
    user_data_template route_destination : string) : M string :=
  target_subnet ← get_subnet_in_az target_az (li_subnet_id info);
  match target_subnet with
  | None | Some "" => raise (PyException ("No subnet found in AZ " +:+ target_az))
  | Some target_subnet =>
      az_subnet_gateway ← get_subnet_gateway target_subnet;
      user_data ← render_user_data user_data_template az_subnet_gateway route_destination;
      random_id ← randint 10000 99999;
      let instance_name := "sec-ip-vip-" +:+ pretty random_id in
      new_instance_id ← EC2.run_instances
        (RunRequest (li_ami_id info) (li_instance_type info) keypair security_group
           target_subnet user_data instance_name);
      EC2.wait_instance_running new_instance_id;;
      described ← EC2.describe_instances new_instance_id;
      eni_id ← index0 (NetworkInterfaces described);
      EC2.modify_network_interface_attribute eni_id false;;
      mret new_instance_id
  end.

(** *** One monitoring cycle of [main] *)

(** What the cycle has learnt about the instance when it decides: whether
    [get_instance_info] returned a dictionary, the [state] in it, and the
    result of the ping ([ping_reachable], [False] when no ping was run). *)
Record HealthObservation : Type := Observation {
  obs_exists : bool;
  obs_state : string;
  obs_reachable : bool
}.

(** The decision of lines 249-269 as a function of the observation: the
    pair ([needs_replacement], [reason]). *)
Definition replacement_needed (o : HealthObservation) : bool * string :=
  if negb (obs_exists o) then (true, "not found")
  else if decide (obs_state o ≠ "running") then (true, "state is " +:+ obs_state o)
  else if negb (obs_reachable o) then (true, "unreachable")
  else (false, "").

(** [args.route_destination.split('/')[0]] *)
Fixpoint before_slash (s : string) : string :=
  match s with
  | EmptyString => EmptyString
  | String c rest => if Ascii.eqb c "/"%char then EmptyString else String c (before_slash rest)
  end.

(** Lines 249-269 as written: the ping is run only in the [else] branch.
    Returns ([needs_replacement], [reason], [ping_reachable]). *)
Definition check_replacement (args : arguments) (info : option instance_info)
    : M (bool * string * bool) :=
  match info with
  | None => mret (true, "not found", false)
  | Some i =>
      if decide (info_state i ≠ "running") then
        mret (true, "state is " +:+ info_state i, false)
      else
        let route_ip := before_slash (route_destination args) in
        ping_reachable ← ping_instance route_ip;
        if negb ping_reachable then mret (true, "unreachable", ping_reachable)
        else mret (false, "", ping_reachable)
  end.

Definition default_ami : string := "ami-0c02fb55956c7d316".

(** Lines 287-312: the instance description to launch from and the target
    zone, or [None] when the cycle is abandoned with [continue] (after a
    5 second sleep). *)
Definition plan_replacement (info : option instance_info)
    : M (option (launch_info * string)) :=
  known ← match info with
          | Some i => mret (Some (launch_info_of i))
          | None =>
              azs ← EC2.describe_availability_zones;
              target_az ← index0 azs;
              found ← EC2.describe_subnets_filter None target_az;
              match found with
              | [] => sleep 5;; mret None
              | s :: _ => mret (Some (LaunchInfo target_az (sn_id s) default_ami "t3.micro"))
              end
          end;
  match known with
  | None => mret None
  | Some info =>
      other_azs ← get_other_azs (li_az info);
      match other_azs with
      | [] => sleep 5;; mret None
      | target_az :: _ => mret (Some (info, target_az))
      end
  end.

(** Lines 315-322: launch the replacement, then wait for its status checks. *)
Definition provision (args : arguments) (info : launch_info) (target_az : string) : M string :=
  new_instance_id ← launch_instance_in_az info target_az (security_group args)
                      (keypair args) (user_data_file args) (route_destination args);
  EC2.wait_instance_status_ok new_instance_id;;
  mret new_instance_id.

(** Lines 325-341: the grace period, the routes, the old instance. *)
Definition switch_over (args : arguments) (current_instance_id new_instance_id : string)
    : M string :=
  sleep 30;;
  update_routes current_instance_id new_instance_id (route_destination args);;
  try_except (EC2.terminate_instances current_instance_id) (λ _, mret ());;
  mret new_instance_id.

(** Lines 284-345, the branch taken when [needs_replacement] is set: plan,
    provision, switch over, then the sleep that ends the iteration.  When the
    plan is abandoned the [continue] skips that sleep and the instance id is
    kept. *)
Definition replace_instance (args : arguments) (current_instance_id : string)
    (info : option instance_info) : M string :=
  plan ← plan_replacement info;
  match plan with
  | None => mret current_instance_id
  | Some (info, target_az) =>
      new_instance_id ← provision args info target_az;
      new_instance_id ← switch_over args current_instance_id new_instance_id;
      sleep 5;;
      mret new_instance_id
  end.

(** The body of the [while True] loop, lines 238-345; the result is the
    [current_instance_id] of the next iteration.  This id is all the loop
    carries from one iteration to the next. *)
Definition cycle (args : arguments) (current_instance_id : string) : M string :=
  info ← get_instance_info current_instance_id;
  '(needs_replacement, _, _) ← check_replacement args info;
  if (needs_replacement : bool) then
    replace_instance args current_instance_id info
  else
    sleep 5;;
    mret current_instance_id.

(** The first [n] iterations of the loop. *)
Fixpoint monitor (n : nat) (args : arguments) (current_instance_id : string) : M string :=
  match n with
  | O => mret current_instance_id
  | S n =>
      next ← cycle args current_instance_id;
      monitor n args next
  end.

(** [main], lines 221-351, cut after [n] iterations: [Some 1] when an
    exception reached [except Exception] and the process exited with
    status 1, [None] when the loop is still running. *)
Definition main (n : nat) (args : arguments) (w : world) : option Z * world :=
  match monitor n args (instance_id args) w with
  | (Ok _, w') => (None, w')
  | (Raise _, w') => (Some 1, w')
  end.

(** ** The specification's vocabulary *)

Inductive Reason : Type :=
  | NotFound
  | NotRunning (state : string)
  | Unreachable.

Inductive Action : Type :=
  | NoAction
  | Replace (reason : Reason).

(** How the script spells an action: [needs_replacement] and [reason]. *)
Definition reason_text (r : Reason) : string :=
  match r with
  | NotFound => "not found"
  | NotRunning state => "state is " +:+ state
  | Unreachable => "unreachable"
  end.

Definition spelled (a : Action) : bool * string :=
  match a with
  | NoAction => (false, "")
  | Replace r => (true, reason_text r)
  end.

(** A small account used by the examples: two zones, one VPC with a subnet
    in each zone, two route tables. *)
Module Demo.

Definition web : instance :=
  Instance (Some "10.0.1.5") "eu-west-1a" "running" "ami-1" "t3.small" (Some "subnet-a")
    ["eni-web"].

Definition subnet_a : subnet := Subnet "subnet-a" "vpc-1" "eu-west-1a" (Cidr 167772416 24).
Definition subnet_b : subnet := Subnet "subnet-b" "vpc-1" "eu-west-1b" (Cidr 167772672 24).

Definition rt_main : route_table := RouteTable "vpc-1" {[ "10.0.0.10/32" := "i-web" ]}.
Definition rt_priv : route_table := RouteTable "vpc-1" {[ "10.0.0.10/32" := "i-web" ]}.

Definition account : cloud :=
  Cloud {[ "i-web" := web ]} [subnet_a; subnet_b]
    {[ "rtb-main" := rt_main; "rtb-priv" := rt_priv ]}
    ["eu-west-1a"; "eu-west-1b"] {[ "eni-web" := true ]} 7.

Definition args : arguments :=
  Args "i-web" "sg-1" "key-1" "user_data.j2" "10.0.0.10/32".

Definition disk : gmap string string :=
  {[ "user_data.j2" := "ip addr add {{ ROUTE_DESTINATION }}" ]}.

(** A quiet environment: no API failure, pings answer, nothing recorded yet. *)
Definition quiet (cl : cloud) : world := World cl disk [] [] [] [].

(** The same account with the instance in the second zone. *)
Definition web_b : instance :=
  Instance (Some "10.0.2.5") "eu-west-1b" "running" "ami-1" "t3.small" (Some "subnet-b")
    ["eni-web"].

Definition account_b : cloud :=
  Cloud {[ "i-web" := web_b ]} [subnet_a; subnet_b]
    {[ "rtb-main" := rt_main; "rtb-priv" := rt_priv ]}
    ["eu-west-1a"; "eu-west-1b"] {[ "eni-web" := true ]} 7.

End Demo.

(** ** The vocabulary of the properties *)

(** In a world where the environment injects no failure, an API call is its
    [body]. *)
Definition calm (w : world) : Prop := faults w = [].

(** The world reached from [w], calm, when the account has become [cl] and
    the calls [evs] have been made. *)
Definition after (w : world) (cl : cloud) (evs : list event) : world :=
  World cl (files w) [] (pings w) (rng w) (trace w ++ evs).

(** [emits P m]: whatever the world, [m] only appends to the trace, and only
    calls that satisfy [P]. *)
Definition emits {A} (P : call → Prop) (m : M A) : Prop :=
  ∀ w, ∃ evs, trace (m w).2 = trace w ++ evs ∧ Forall (λ e, P (ev_call e)) evs.

(** The calls that only read the account. *)
Definition is_describe (c : call) : Prop :=
  match c with
  | DescribeInstances _ | DescribeSubnetsById _ | DescribeSubnetsFilter _ _
  | DescribeRouteTables _ | DescribeAvailabilityZones => True
  | _ => False
  end.

Definition is_probe (c : call) : Prop :=
  match c with SubprocessRun _ _ => True | _ => False end.

Global Instance is_probe_dec c : Decision (is_probe c).
Proof. destruct c; simpl; apply _. Defined.

Definition is_launch (c : call) : Prop :=
  match c with RunInstances _ => True | _ => False end.

Global Instance is_launch_dec c : Decision (is_launch c).
Proof. destruct c; simpl; apply _. Defined.

(** In a calm world the lookup is a function of the account. *)
Definition info_of (cl : cloud) (id : string) : option instance_info :=
  i ← instances cl !! id;
  subnet_id ← SubnetId i;
  Some (InstanceInfo (PrivateIpAddress i) (AvailabilityZone i) (StateName i) (ImageId i)
          (InstanceType i) subnet_id).

(** The observation the cycle decides on. *)
Definition observe (info : option instance_info) (ping_reachable : bool) : HealthObservation :=
  match info with
  | None => Observation false "" false
  | Some i => Observation true (info_state i) ping_reachable
  end.

Definition is_running (info : option instance_info) : Prop :=
  match info with
  | Some i => info_state i = "running"
  | None => False
  end.

Global Instance is_running_dec info : Decision (is_running info).
Proof. destruct info; simpl; apply _. Defined.

(** The probe the cycle runs. *)
Definition ping_call (args : arguments) : call :=
  SubprocessRun ["ping"; "-c"; "1"; "-W"; "2"; before_slash (route_destination args)] 5.

Definition no_probe (c : call) : Prop := ¬ is_probe c.

(** The calls of a trace that satisfy [P], in order. *)
Definition select (P : call → Prop) `{!∀ c, Decision (P c)} (t : list event) : list call :=
  filter P (ev_call <$> t).


(** The calls that create the replacement and make it ready. *)
Definition is_step (c : call) : Prop :=
  match c with
  | RunInstances _ | WaitInstanceRunning _ | WaitInstanceStatusOk _
  | ModifySourceDestCheck _ _ => True
  | _ => False
  end.

Global Instance is_step_dec c : Decision (is_step c).
Proof. destruct c; simpl; apply _. Defined.

Definition steps (t : list event) : list call := select is_step t.

(** The order the specification describes, and the order of the script. *)
Definition described_order (req : run_request) (id eni : string) : list call :=
  [RunInstances req; WaitInstanceRunning id; WaitInstanceStatusOk id;
   ModifySourceDestCheck eni false].

Definition script_order (req : run_request) (id eni : string) : list call :=
  [RunInstances req; WaitInstanceRunning id; ModifySourceDestCheck eni false;
   WaitInstanceStatusOk id].

(** The calls the loop makes for the tables [ids]. *)
Definition route_calls (ids : list string) (new_instance_id destination_cidr : string)
    : list call :=
  ids ≫= λ rt_id,
    [DeleteRoute rt_id destination_cidr; CreateRoute rt_id destination_cidr new_instance_id].

Module Lonely.

(** An account whose instance is gone and whose VPC has a subnet in the
    first zone only. *)
Definition account : cloud :=
  Cloud ∅ [Demo.subnet_a] {[ "rtb-main" := Demo.rt_main ]}
    ["eu-west-1a"; "eu-west-1b"] ∅ 7.

Definition one_zone : cloud :=
  Cloud ∅ [Demo.subnet_a] {[ "rtb-main" := Demo.rt_main ]} ["eu-west-1a"] ∅ 7.

End Lonely.

(** What [update_routes] does to the account in a calm world, as a function
    of the account. *)
Definition subnet_vpc (cl : cloud) (subnet_id : string) : option string :=
  sn_vpc <$> head (filter (λ s, sn_id s = subnet_id) (subnets cl)).

Definition routes_subnet_of (cl : cloud) (old new : string) : option string :=
  match info_of cl old with
  | Some i => Some (info_subnet_id i)
  | None => info_subnet_id <$> info_of cl new
  end.

(** The VPC whose tables are reconciled, when it can be determined. *)
Definition reconciled_vpc (cl : cloud) (old new : string) : option string :=
  routes_subnet_of cl old new ≫= subnet_vpc cl.

Definition table_ids (cl : cloud) (vpc_id : string) : list string :=
  (filter (λ p, rt_vpc p.2 = vpc_id) (map_to_list (route_tables cl))).*1.

(** One table after its delete and its create: the route to [cidr] points
    at [new] when that instance exists, and is gone otherwise. *)
Definition repoint (cl : cloud) (new cidr : string) (t : route_table) : route_table :=
  EC2.set_routes
    (match instances cl !! new with
     | Some _ => <[cidr := new]> (rt_routes t)
     | None => delete cidr (rt_routes t)
     end) t.

Definition reconcile_table (cl : cloud) (vpc_id new cidr : string) (t : route_table)
    : route_table :=
  if decide (rt_vpc t = vpc_id) then repoint cl new cidr t else t.

Definition reconciled (cl : cloud) (old new cidr : string) : cloud :=
  match reconciled_vpc cl old new with
  | Some v => EC2.with_route_tables (fmap (reconcile_table cl v new cidr)) cl
  | None => cl
  end.

(** One iteration of the loop, on the account. *)
Definition route_step (new cidr : string) (cl : cloud) (rt_id : string) : cloud :=
  (EC2.create_route_body rt_id cidr new (EC2.delete_route_body rt_id cidr cl).2).2.

(** The trace of the loop in a calm world. *)
Fixpoint route_events (new cidr : string) (cl : cloud) (ids : list string) : list event :=
  match ids with
  | [] => []
  | rt_id :: rest =>
      let cl1 := (EC2.delete_route_body rt_id cidr cl).2 in
      Ev (DeleteRoute rt_id cidr) (is_ok (EC2.delete_route_body rt_id cidr cl).1)
      :: Ev (CreateRoute rt_id cidr new) (is_ok (EC2.create_route_body rt_id cidr new cl1).1)
      :: route_events new cidr (route_step new cidr cl rt_id) rest
  end.

(** [respects R m]: whatever the world, [m] takes it to a world related to it
    by [R]. *)
Definition respects {A} (R : relation world) (m : M A) : Prop := ∀ w, R w (m w).2.

(** The account and the files are as before. *)
Definition untouched (w w' : world) : Prop :=
  cloud_of w' = cloud_of w ∧ files w' = files w.

Fixpoint has_slash (s : string) : bool :=
  match s with
  | EmptyString => false
  | String c rest => if Ascii.eqb c "/"%char then true else has_slash rest
  end.

(** Two accounts that differ at most in the route to [cidr] of their route
    tables. *)
Definition same_but_route (cidr : string) (cl cl' : cloud) : Prop :=
  instances cl' = instances cl ∧ subnets cl' = subnets cl ∧ zones cl' = zones cl
  ∧ enis cl' = enis cl ∧ next_id cl' = next_id cl
  ∧ ∀ id, match route_tables cl !! id, route_tables cl' !! id with
          | Some t, Some t' =>
              rt_vpc t' = rt_vpc t ∧ ∀ d, d ≠ cidr → rt_routes t' !! d = rt_routes t !! d
          | None, None => True
          | _, _ => False
          end.

Definition route_only (cidr : string) (w w' : world) : Prop :=
  same_but_route cidr (cloud_of w) (cloud_of w').

(** * Properties *)

(** ** Running computations *)

Lemma bind_run {A B} (m : M A) (f : A → M B) (w : world) :
  (m ≫= f) w = match m w with
               | (Ok a, w') => f a w'
               | (Raise e, w') => (Raise e, w')
               end.
Proof. reflexivity. Qed.

Lemma ret_run {A} (a : A) (w : world) : (mret a : M A) w = (Ok a, w).
Proof. reflexivity. Qed.

(** Unfolds [return] and [raise] in the hypotheses and simplifies the
    resulting equations between outcomes. *)
Ltac simp_run := unfold mret, M_ret, raise in *; simplify_eq/=.

Lemma bind_ok_inv {A B} (m : M A) (f : A → M B) (w w' : world) (b : B) :
  (m ≫= f) w = (Ok b, w') → ∃ a w1, m w = (Ok a, w1) ∧ f a w1 = (Ok b, w').
Proof.
  rewrite bind_run. destruct (m w) as [[a|e] w1]; intros H.
  - exists a, w1. auto.
  - discriminate.
Qed.

Lemma try_except_run {A} (m : M A) (h : exn → M A) (w : world) :
  try_except m h w = match m w with
                     | (Ok a, w') => (Ok a, w')
                     | (Raise e, w') => h e w'
                     end.
Proof. reflexivity. Qed.

(** An API call always leaves exactly one entry in the trace, and touches
    the account only when it succeeds through [body]. *)
Lemma api_spec {A} (c : call) (err : exn) (body : cloud → result A * cloud) (w : world) :
  ∃ r cl, api c err body w =
            (r, World cl (files w) (tail (faults w)) (pings w) (rng w)
                  (trace w ++ [Ev c (is_ok r)]))
          ∧ ((r = Raise err ∧ cl = cloud_of w ∧ head (faults w) = Some true)
             ∨ (body (cloud_of w) = (r, cl) ∧ head (faults w) ≠ Some true)).
Proof.
  unfold api. destruct (faults w) as [|[] fs] eqn:Hf; simpl.
  - destruct (body (cloud_of w)) as [r cl] eqn:Hb. exists r, cl.
    split; [done|]. right. split; [done|]. discriminate.
  - exists (Raise err), (cloud_of w). split; [done|]. left. done.
  - destruct (body (cloud_of w)) as [r cl] eqn:Hb. exists r, cl.
    split; [done|]. right. split; [done|]. discriminate.
Qed.

Lemma after_after w cl evs cl' evs' :
  after (after w cl evs) cl' evs' = after w cl' (evs ++ evs').
Proof. unfold after. simpl. by rewrite app_assoc. Qed.

Lemma calm_after w cl evs : calm (after w cl evs).
Proof. reflexivity. Qed.

Lemma api_calm {A} (c : call) (err : exn) (body : cloud → result A * cloud) (w : world) :
  calm w →
  api c err body w =
    ((body (cloud_of w)).1, after w (body (cloud_of w)).2 [Ev c (is_ok (body (cloud_of w)).1)]).
Proof.
  unfold calm, api, after. intros ->. by destruct (body (cloud_of w)).
Qed.

(** ** What a computation may add to the trace *)

Section Emits.
Context (P : call → Prop).

Lemma emits_ret {A} (a : A) : emits P (mret a).
Proof. intros w. exists []. by rewrite app_nil_r. Qed.

Lemma emits_raise {A} (e : exn) : emits P (raise e : M A).
Proof. intros w. exists []. by rewrite app_nil_r. Qed.

Lemma emits_bind {A B} (m : M A) (f : A → M B) :
  emits P m → (∀ a, emits P (f a)) → emits P (m ≫= f).
Proof.
  intros Hm Hf w. rewrite bind_run. destruct (Hm w) as (evs & Ht & HP).
  destruct (m w) as [[a|e] w1]; simpl in *.
  - destruct (Hf a w1) as (evs' & Ht' & HP'). exists (evs ++ evs').
    rewrite Ht', Ht, app_assoc. split; [done|]. by apply Forall_app.
  - eauto.
Qed.

Lemma emits_try {A} (m : M A) (h : exn → M A) :
  emits P m → (∀ e, emits P (h e)) → emits P (try_except m h).
Proof.
  intros Hm Hh w. rewrite try_except_run. destruct (Hm w) as (evs & Ht & HP).
  destruct (m w) as [[a|e] w1]; simpl in *.
  - eauto.
  - destruct (Hh e w1) as (evs' & Ht' & HP'). exists (evs ++ evs').
    rewrite Ht', Ht, app_assoc. split; [done|]. by apply Forall_app.
Qed.

Lemma emits_api {A} (c : call) (err : exn) (body : cloud → result A * cloud) :
  P c → emits P (api c err body).
Proof.
  intros Hc w. destruct (api_spec c err body w) as (r & cl & -> & _).
  simpl. eexists. split; [done|]. by constructor.
Qed.

Lemma emits_sleep (n : Z) : P (Sleep n) → emits P (sleep n).
Proof. intros Hc w. simpl. eexists. split; [done|]. by constructor. Qed.

Lemma emits_subprocess_run argv timeout :
  P (SubprocessRun argv timeout) → emits P (subprocess_run argv timeout).
Proof.
  intros Hc w. unfold subprocess_run.
  destruct (next_ping w); simpl; eexists; (split; [done|]); by constructor.
Qed.

Lemma emits_read_file path : P (OpenFile path) → emits P (read_file path).
Proof.
  intros Hc w. unfold read_file.
  destruct (files w !! path); simpl; eexists; (split; [done|]); by constructor.
Qed.

Lemma emits_randint lo hi : emits P (randint lo hi).
Proof. intros w. exists []. simpl. by rewrite app_nil_r. Qed.

Lemma emits_index0 {A} (l : list A) : emits P (index0 l).
Proof. destruct l; [apply emits_raise | apply emits_ret]. Qed.

Lemma emits_getitem {A} key (o : option A) : emits P (getitem key o).
Proof. destruct o; [apply emits_ret | apply emits_raise]. Qed.
End Emits.

Lemma emits_weaken {A} (P Q : call → Prop) (m : M A) :
  (∀ c, P c → Q c) → emits P m → emits Q m.
Proof.
  intros HPQ Hm w. destruct (Hm w) as (evs & Ht & HP). exists evs. split; [done|].
  eapply Forall_impl; [exact HP|]. simpl. auto.
Qed.

(** Solves [emits P m] for straight-line code over the primitives. *)
Ltac emits_step :=
  first
    [ apply emits_ret | apply emits_raise | apply emits_index0 | apply emits_getitem
    | apply emits_randint
    | apply emits_api; simpl; tauto
    | apply emits_sleep; simpl; tauto
    | apply emits_subprocess_run; simpl; tauto
    | apply emits_read_file; simpl; tauto
    | apply emits_bind; [|intros]
    | apply emits_try; [|intros]
    | progress case_match ].

Ltac emits_auto := repeat emits_step.

Lemma get_instance_info_emits (P : call → Prop) id :
  P (DescribeInstances id) → emits P (get_instance_info id).
Proof.
  intros HP. unfold get_instance_info, get_instance_info_body, EC2.describe_instances.
  apply emits_try; [|intros; apply emits_ret].
  apply emits_bind; [by apply emits_api|intros].
  apply emits_bind; [apply emits_getitem|intros; apply emits_ret].
Qed.

(** ** The lookup never raises *)

Lemma get_instance_info_total (id : string) (w : world) :
  ∃ info ok, get_instance_info id w =
    (Ok info, World (cloud_of w) (files w) (tail (faults w)) (pings w) (rng w)
                (trace w ++ [Ev (DescribeInstances id) ok])).
Proof.
  unfold get_instance_info, get_instance_info_body, EC2.describe_instances.
  rewrite try_except_run, bind_run.
  match goal with |- context [api ?c ?e ?b w] =>
    destruct (api_spec c e b w) as (r & cl & -> & Hcl) end.
  assert (cl = cloud_of w) as ->.
  { destruct Hcl as [(_ & -> & _)|[Hb _]]; [done|].
    destruct (instances (cloud_of w) !! id); by inversion Hb. }
  destruct r as [i|e]; simpl; [|by eauto].
  destruct (SubnetId i); simpl; eauto.
Qed.

Lemma get_instance_info_calm (id : string) (w : world) :
  calm w →
  get_instance_info id w =
    (Ok (info_of (cloud_of w) id),
     after w (cloud_of w)
       [Ev (DescribeInstances id) (bool_decide (is_Some (instances (cloud_of w) !! id)))]).
Proof.
  intros Hw. unfold get_instance_info, get_instance_info_body, EC2.describe_instances.
  rewrite try_except_run, bind_run, api_calm by done. unfold info_of.
  destruct (instances (cloud_of w) !! id) as [i|]; simpl; [|done].
  destruct (SubnetId i); simpl; done.
Qed.

(** ** The decision *)

Lemma spelled_inj (a b : Action) : spelled a = spelled b → a = b.
Proof.
  destruct a as [|[]], b as [|[]]; simpl; intros H; try done; try discriminate.
  by simplify_eq.
Qed.

Lemma ping_instance_run (ip : string) (w : world) :
  ping_instance ip w =
    (Ok (bool_decide (next_ping w = Exited 0)),
     World (cloud_of w) (files w) (faults w) (tail (pings w)) (rng w)
       (trace w ++ [Ev (SubprocessRun ["ping"; "-c"; "1"; "-W"; "2"; ip] 5)
                      (match next_ping w with Exited _ => true | _ => false end)])).
Proof.
  unfold ping_instance. rewrite try_except_run, bind_run. unfold subprocess_run.
  destruct (next_ping w) as [rc| |]; simpl; try done.
  destruct (decide (rc = 0)) as [->|Hrc]; simpl; [done|].
  rewrite bool_decide_eq_false_2; [done|]. congruence.
Qed.

(** Lines 249-269 compute [replacement_needed] of the observation; the probe
    is run exactly when the instance is reported running. *)
Lemma check_replacement_run (args : arguments) (info : option instance_info) (w : world) :
  let reachable := bool_decide (is_running info ∧ next_ping w = Exited 0) in
  ∃ w', check_replacement args info w
        = (Ok (replacement_needed (observe info reachable), reachable), w')
    ∧ cloud_of w' = cloud_of w ∧ faults w' = faults w
    ∧ ((is_running info ∧ ∃ ok, trace w' = trace w ++ [Ev (ping_call args) ok])
       ∨ (¬ is_running info ∧ w' = w)).
Proof.
  intros reachable. subst reachable.
  unfold check_replacement, replacement_needed.
  destruct info as [i|]; simpl.
  - destruct (decide (info_state i ≠ "running")) as [Hs|Hs]; simpl.
    + exists w. rewrite bool_decide_eq_false_2 by tauto. split_and!; auto.
    + apply dec_stable in Hs. rewrite bind_run, ping_instance_run.
      destruct (decide (next_ping w = Exited 0)) as [Hp|Hp].
      * rewrite !bool_decide_eq_true_2 by tauto. simpl.
        eexists. split_and!; [done..|]. left. eauto.
      * rewrite !bool_decide_eq_false_2 by tauto. simpl.
        eexists. split_and!; [done..|]. left. eauto.
  - exists w. split_and!; auto.
Qed.

Lemma replacement_needed_cases (o : HealthObservation) :
  replacement_needed o = (false, "") ∨ (replacement_needed o).1 = true.
Proof.
  unfold replacement_needed.
  destruct (obs_exists o), (decide (obs_state o ≠ "running")), (obs_reachable o);
    simpl; auto.
Qed.

(** C1: the decision is NoAction exactly when the instance exists, is
    running and is reachable; otherwise it is Replace, with reason NotFound
    when the instance does not exist, NotRunning(state) when it exists with
    another state, and Unreachable when it exists and runs but the probe
    failed.  NoAction is the pair [(False, "")] of the script and Replace
    with a reason the pair [(True, text)].  This is the decision the loop
    takes: lines 249-269 return the decision of this table for what the
    lookup returned and what the probe answered, and the cycle sleeps and
    keeps its instance on NoAction and replaces it on any other decision. *)
Theorem decision_table (args : arguments) (current_instance_id : string) (w : world)
    (o : HealthObservation) :
  ((replacement_needed o = spelled NoAction
      ↔ obs_exists o = true ∧ obs_state o = "running" ∧ obs_reachable o = true)
   ∧ (obs_exists o = false → replacement_needed o = spelled (Replace NotFound))
   ∧ (obs_exists o = true → obs_state o ≠ "running" →
        replacement_needed o = spelled (Replace (NotRunning (obs_state o))))
   ∧ (obs_exists o = true → obs_state o = "running" → obs_reachable o = false →
        replacement_needed o = spelled (Replace Unreachable)))
  ∧ (spelled NoAction = (false, "")
     ∧ spelled (Replace NotFound) = (true, "not found")
     ∧ spelled (Replace (NotRunning (obs_state o))) = (true, "state is " +:+ obs_state o)
     ∧ spelled (Replace Unreachable) = (true, "unreachable"))
  ∧ ∃ info w1 w2 reachable,
      get_instance_info current_instance_id w = (Ok info, w1)
      ∧ reachable = bool_decide (is_running info ∧ next_ping w1 = Exited 0)
      ∧ let seen := match info with
                    | Some i => Observation true (info_state i) reachable
                    | None => Observation false "" false
                    end in
        check_replacement args info w1 = (Ok (replacement_needed seen, reachable), w2)
        ∧ (replacement_needed seen = spelled NoAction →
             cycle args current_instance_id w
             = (Ok current_instance_id, log (Ev (Sleep 5) true) w2))
        ∧ (replacement_needed seen ≠ spelled NoAction →
             cycle args current_instance_id w
             = replace_instance args current_instance_id info w2).
Proof.
  split; [|split; [done|]].
  { destruct o as [ex st re]. unfold replacement_needed. simpl.
    destruct ex, re, (decide (st ≠ "running")) as [Hs|Hs]; simpl;
      try apply dec_stable in Hs; split_and!; try split; intros; destruct_and?;
      try done; try discriminate; try congruence. }
  destruct (get_instance_info_total current_instance_id w) as (info & ok & Hinfo).
  match type of Hinfo with _ = (_, ?w1) =>
    destruct (check_replacement_run args info w1) as (w2 & Hcheck & _); exists info, w1, w2
  end.
  eexists. split; [exact Hinfo|]. split; [reflexivity|].
  assert (observe info (bool_decide (is_running info ∧ next_ping
            (World (cloud_of w) (files w) (tail (faults w)) (pings w) (rng w)
               (trace w ++ [Ev (DescribeInstances current_instance_id) ok])) = Exited 0))
          = match info with
            | Some i => Observation true (info_state i) (bool_decide (is_running info ∧ next_ping
                (World (cloud_of w) (files w) (tail (faults w)) (pings w) (rng w)
                   (trace w ++ [Ev (DescribeInstances current_instance_id) ok])) = Exited 0))
            | None => Observation false "" false
            end) as Hseen by (by destruct info).
  rewrite Hseen in Hcheck. cbv zeta. split; [exact Hcheck|].
  unfold cycle. rewrite bind_run, Hinfo, bind_run, Hcheck. split.
  - intros ->. done.
  - intros Hno. destruct (replacement_needed_cases
      match info with
      | Some i => Observation true (info_state i) (bool_decide (is_running info ∧ next_ping
          (World (cloud_of w) (files w) (tail (faults w)) (pings w) (rng w)
             (trace w ++ [Ev (DescribeInstances current_instance_id) ok])) = Exited 0))
      | None => Observation false "" false
      end) as [Hd|Hd]; [done|].
    destruct (replacement_needed _) as [needs reason]. simpl in Hd. by subst needs.
Qed.

(** ** Only the health check runs a probe *)

Lemma route_loop_no_probe ids new cidr : emits no_probe (route_loop ids new cidr).
Proof.
  unfold no_probe. induction ids as [|id ids IH]; simpl.
  - apply emits_ret.
  - unfold EC2.delete_route, EC2.create_route. emits_auto. apply IH.
Qed.

Ltac no_probe_auto :=
  unfold no_probe;
  repeat first
    [ emits_step
    | apply route_loop_no_probe
    | apply get_instance_info_emits; simpl; tauto ].


Lemma launch_instance_in_az_no_probe info target_az sg kp template cidr :
  emits no_probe (launch_instance_in_az info target_az sg kp template cidr).
Proof.
  unfold launch_instance_in_az, get_subnet_in_az, get_subnet_gateway, render_user_data,
    IPv4Network, IPv4Address_add,
    EC2.describe_subnets_by_id, EC2.describe_subnets_filter, EC2.run_instances,
    EC2.wait_instance_running, EC2.describe_instances,
    EC2.modify_network_interface_attribute.
  no_probe_auto.
Qed.



Lemma select_app (P : call → Prop) `{!∀ c, Decision (P c)} t t' :
  select P (t ++ t') = select P t ++ select P t'.
Proof. unfold select. by rewrite fmap_app, filter_app. Qed.

Lemma select_none (P : call → Prop) `{!∀ c, Decision (P c)} evs :
  Forall (λ e, ¬ P (ev_call e)) evs → select P evs = [].
Proof.
  unfold select. induction 1 as [|e evs He _ IH]; [done|].
  rewrite fmap_cons, filter_cons_False; done.
Qed.

Lemma emits_select {A} (P : call → Prop) `{!∀ c, Decision (P c)} (m : M A) (w : world) :
  emits (λ c, ¬ P c) m → select P (trace (m w).2) = select P (trace w).
Proof.
  intros Hm. destruct (Hm w) as (evs & -> & Hevs).
  by rewrite select_app, (select_none P evs), app_nil_r.
Qed.






(** ** Choosing the target zone *)

Lemma filter_first {A} (P : A → Prop) `{!∀ x, Decision (P x)} (l : list A) x rest :
  filter P l = x :: rest →
  ∃ before after, l = before ++ x :: after ∧ Forall (λ y, ¬ P y) before ∧ P x.
Proof.
  induction l as [|y l IH]; [done|]. rewrite filter_cons.
  destruct (decide (P y)) as [Hy|Hy]; intros Hfl.
  - simplify_eq. exists [], l. auto.
  - destruct (IH Hfl) as (before & after & -> & Hb & Hx).
    exists (y :: before), after. split_and!; [done| |done]. by constructor.
Qed.

Lemma api_ok_inv {A} (c : call) (err : exn) (body : cloud → result A * cloud)
    (w w' : world) (a : A) :
  api c err body w = (Ok a, w') →
  ∃ cl, body (cloud_of w) = (Ok a, cl)
    ∧ w' = World cl (files w) (tail (faults w)) (pings w) (rng w) (trace w ++ [Ev c true]).
Proof.
  destruct (api_spec c err body w) as (r & cl & -> & Hcl). intros H.
  simplify_eq. destruct Hcl as [(? & _)|(Hb & _)]; [done|]. eauto.
Qed.

Lemma get_other_azs_ok_inv (current_az : string) (w w' : world) (l : list string) :
  get_other_azs current_az w = (Ok l, w') →
  l = filter (λ z, z ≠ current_az) (zones (cloud_of w)) ∧ cloud_of w' = cloud_of w.
Proof.
  unfold get_other_azs, EC2.describe_availability_zones. intros H.
  apply bind_ok_inv in H as (azs & w1 & H1 & H2).
  apply api_ok_inv in H1 as (cl & Hb & ->). by simp_run.
Qed.

(** What a successful lookup returns is what EC2 reports for the instance. *)
Lemma get_instance_info_some_inv (id : string) (w w1 : world) (i : instance_info) :
  get_instance_info id w = (Ok (Some i), w1) →
  ∃ inst, instances (cloud_of w) !! id = Some inst
    ∧ SubnetId inst = Some (info_subnet_id i)
    ∧ info_ip i = PrivateIpAddress inst
    ∧ info_az i = AvailabilityZone inst
    ∧ info_state i = StateName inst
    ∧ info_ami_id i = ImageId inst
    ∧ info_instance_type i = InstanceType inst.
Proof.
  unfold get_instance_info, get_instance_info_body, EC2.describe_instances.
  rewrite try_except_run, bind_run.
  match goal with |- context [api ?c ?e ?b w] =>
    destruct (api_spec c e b w) as (r & cl & -> & Hcl) end.
  destruct Hcl as [(-> & _)|[Hb _]]; [by simp_run|].
  destruct (instances (cloud_of w) !! id) as [inst|]; simplify_eq/=; [|by simp_run].
  destruct (SubnetId inst) as [sn|] eqn:Hsn; simpl; intros H; simp_run.
  exists inst. by rewrite Hsn.
Qed.

(** C3, as the script has it: whenever a replacement is planned, the target
    zone differs from the zone the plan starts from, and it is the first zone
    of the region's list that does; the instance is then launched for that
    zone.  When the lookup described the instance, the plan starts from what
    EC2 reports for it (its zone, subnet, image and type), so the target
    differs from the instance's zone.  When the lookup returned nothing, the
    plan starts from the first listed zone: the script keeps no last-known
    zone, and the target is only known to differ from that first zone. *)
Theorem target_zone_differs (args : arguments) (current_instance_id : string)
    (info : option instance_info) (w w1 w' : world) (known : launch_info)
    (target_az : string) :
  get_instance_info current_instance_id w = (Ok info, w1) →
  plan_replacement info w1 = (Ok (Some (known, target_az)), w') →
  target_az ≠ li_az known
  ∧ (∃ before after,
       zones (cloud_of w) = before ++ target_az :: after
       ∧ Forall (λ z, z = li_az known) before)
  ∧ match info with
    | Some i =>
        ∃ inst, instances (cloud_of w) !! current_instance_id = Some inst
          ∧ target_az ≠ AvailabilityZone inst
          ∧ li_az known = AvailabilityZone inst
          ∧ SubnetId inst = Some (li_subnet_id known)
          ∧ li_ami_id known = ImageId inst
          ∧ li_instance_type known = InstanceType inst
    | None => head (zones (cloud_of w)) = Some (li_az known)
    end
  ∧ replace_instance args current_instance_id info w1
    = (new_instance_id ← provision args known target_az;
       new_instance_id ← switch_over args current_instance_id new_instance_id;
       sleep 5;; mret new_instance_id) w'.
Proof.
  intros Hlookup Hplan.
  assert (cloud_of w1 = cloud_of w) as Hw1.
  { destruct (get_instance_info_total current_instance_id w) as (info' & ok & Ht).
    rewrite Ht in Hlookup. by simplify_eq. }
  assert (∃ w2, cloud_of w2 = cloud_of w1
            ∧ match info with
              | Some i => known = launch_info_of i
              | None => head (zones (cloud_of w1)) = Some (li_az known)
              end
            ∧ get_other_azs (li_az known) w2 = (Ok (target_az :: tail
                (filter (λ z, z ≠ li_az known) (zones (cloud_of w2)))), w'))
    as (w2 & Hcl & Hinfo & Hother).
  { unfold plan_replacement in Hplan.
    apply bind_ok_inv in Hplan as (k & w2 & Hknown & Hrest).
    destruct k as [k|]; [|by simp_run].
    apply bind_ok_inv in Hrest as (others & w3 & Hothers & Hrest).
    pose proof (get_other_azs_ok_inv _ _ _ _ Hothers) as [Hl _].
    destruct others as [|t others]; [by apply bind_ok_inv in Hrest as (? & ? & ? & ?)|].
    simp_run. exists w2. rewrite Hothers, <- Hl. simpl. split_and!; [| |done].
    - destruct info as [i|]; [by simp_run|].
      apply bind_ok_inv in Hknown as (azs & wa & Ha & Hknown).
      apply api_ok_inv in Ha as (cl & Hb & ->). simp_run.
      apply bind_ok_inv in Hknown as (z & wb & Hz & Hknown).
      destruct (zones (cloud_of w1)) as [|z' zs]; simp_run.
      apply bind_ok_inv in Hknown as (found & wc & Hf & Hknown).
      apply api_ok_inv in Hf as (cl & Hb & ->). simp_run.
      destruct (filter _ _); [by apply bind_ok_inv in Hknown as (? & ? & ? & ?)|].
      by simp_run.
    - destruct info as [i|]; [by simp_run|].
      apply bind_ok_inv in Hknown as (azs & wa & Ha & Hknown).
      apply api_ok_inv in Ha as (cl & Hb & ->). simp_run.
      apply bind_ok_inv in Hknown as (z & wb & Hz & Hknown).
      destruct (zones (cloud_of w1)) as [|z' zs]; simp_run.
      apply bind_ok_inv in Hknown as (found & wc & Hf & Hknown).
      apply api_ok_inv in Hf as (cl & Hb & ->). simp_run.
      destruct (filter _ _); [by apply bind_ok_inv in Hknown as (? & ? & ? & ?)|].
      by simp_run. }
  apply get_other_azs_ok_inv in Hother as [Hl _]. rewrite Hcl, Hw1 in Hl.
  rewrite Hw1 in Hinfo.
  destruct (filter _ (zones (cloud_of w))) as [|t rest] eqn:Hfilter; simp_run.
  apply filter_first in Hfilter as (before & after & Hz & Hb & Ht).
  split_and!; [done| | |].
  - exists before, after. split; [done|].
    eapply Forall_impl; [exact Hb|]. simpl. intros z Hzz. by apply dec_stable.
  - destruct info as [i|]; [|done]. subst known. simpl in *.
    apply get_instance_info_some_inv in Hlookup
      as (inst & Hinst & Hsn & _ & Haz & _ & Hami & Hty).
    exists inst. rewrite <- Haz, <- Hami, <- Hty. done.
  - unfold replace_instance. rewrite bind_run, Hplan. done.
Qed.

(** On the demo account: the plan for the described instance, which is in
    the first zone, and the plan when the lookup fails. *)
Lemma target_zone_differs_witness :
  (let w := Demo.quiet Demo.account in
   let info := Some (InstanceInfo (Some "10.0.1.5") "eu-west-1a" "running" "ami-1"
                       "t3.small" "subnet-a") in
   (get_instance_info "i-web" w).1 = Ok info
   ∧ (plan_replacement info (exec (get_instance_info "i-web") w)).1
     = Ok (Some (LaunchInfo "eu-west-1a" "subnet-a" "ami-1" "t3.small", "eu-west-1b"))
   ∧ "eu-west-1b" ≠ "eu-west-1a"
   ∧ ∃ inst, instances Demo.account !! "i-web" = Some inst
       ∧ "eu-west-1b" ≠ AvailabilityZone inst)
  ∧ (let w := World Demo.account Demo.disk [true] [] [] [] in
     (get_instance_info "i-web" w).1 = Ok None
     ∧ (plan_replacement None (exec (get_instance_info "i-web") w)).1
       = Ok (Some (LaunchInfo "eu-west-1a" "subnet-a" default_ami "t3.micro", "eu-west-1b"))
     ∧ "eu-west-1b" ≠ "eu-west-1a").
Proof.
  split.
  - intros w info. split; [vm_compute; reflexivity|]. split; [vm_compute; reflexivity|].
    destruct (target_zone_differs Demo.args "i-web" info w
                (exec (get_instance_info "i-web") w)
                (exec (plan_replacement info) (exec (get_instance_info "i-web") w))
                (LaunchInfo "eu-west-1a" "subnet-a" "ami-1" "t3.small") "eu-west-1b")
      as (Hne & _ & (inst & Hinst & Hzone & _) & _).
    + vm_compute. reflexivity.
    + vm_compute. reflexivity.
    + split; [exact Hne|]. exists inst. split; [exact Hinst|exact Hzone].
  - intros w. split; [vm_compute; reflexivity|]. split; [vm_compute; reflexivity|].
    destruct (target_zone_differs Demo.args "i-web" None w
                (exec (get_instance_info "i-web") w)
                (exec (plan_replacement None) (exec (get_instance_info "i-web") w))
                (LaunchInfo "eu-west-1a" "subnet-a" default_ami "t3.micro") "eu-west-1b")
      as (Hne & _).
    + vm_compute. reflexivity.
    + vm_compute. reflexivity.
    + exact Hne.
Defined.

(** The target need not differ from the zone of the instance: on an account
    whose instance is in the second zone, healthy, a lookup that fails for a
    transient reason makes the plan start from the first listed zone, and the
    replacement is launched in the second zone, where the instance is. *)
Lemma degraded_plan_can_target_own_zone :
  let w := World Demo.account_b Demo.disk [true] [] [] [] in
  let w1 := exec (get_instance_info "i-web") w in
  AvailabilityZone <$> instances (cloud_of w) !! "i-web" = Some "eu-west-1b"
  ∧ (get_instance_info "i-web" w).1 = Ok None
  ∧ (plan_replacement None w1).1
    = Ok (Some (LaunchInfo "eu-west-1a" "subnet-a" default_ami "t3.micro", "eu-west-1b"))
  ∧ (cycle Demo.args "i-web" w).1 = Ok "i-7"
  ∧ AvailabilityZone <$> instances (cloud_of (exec (cycle Demo.args "i-web") w)) !! "i-7"
    = Some "eu-west-1b".
Proof. vm_compute. repeat split; reflexivity. Qed.

(** ** Provisioning *)

Lemma emits_run {A} (P : call → Prop) (m : M A) (w w' : world) (r : result A) :
  emits P m → m w = (r, w') →
  ∃ evs, trace w' = trace w ++ evs ∧ Forall (λ e, P (ev_call e)) evs.
Proof. intros Hm Hrun. specialize (Hm w). by rewrite Hrun in Hm. Qed.

Lemma steps_quiet {A} (m : M A) (w w' : world) (r : result A) :
  emits (λ c, ¬ is_step c) m → m w = (r, w') → steps (trace w') = steps (trace w).
Proof.
  intros Hm Hrun. pose proof (emits_select is_step m w Hm) as H.
  by rewrite Hrun in H.
Qed.

Lemma get_subnet_in_az_describes target_az subnet_id :
  emits is_describe (get_subnet_in_az target_az subnet_id).
Proof.
  unfold get_subnet_in_az, EC2.describe_subnets_by_id, EC2.describe_subnets_filter.
  emits_auto.
Qed.

Lemma get_subnet_gateway_describes subnet_id :
  emits is_describe (get_subnet_gateway subnet_id).
Proof.
  unfold get_subnet_gateway, EC2.describe_subnets_by_id, IPv4Network, IPv4Address_add.
  emits_auto.
Qed.

Lemma is_describe_not_step c : is_describe c → ¬ is_step c.
Proof. destruct c; simpl; tauto. Qed.

(** What a successful [launch_instance_in_az] has done: the four calls below,
    in this order, and nothing else that creates or readies an instance. *)
Lemma launch_instance_in_az_steps info target_az sg kp template cidr w w' id :
  launch_instance_in_az info target_az sg kp template cidr w = (Ok id, w') →
  ∃ req eni,
    steps (trace w') = steps (trace w)
      ++ [RunInstances req; WaitInstanceRunning id; ModifySourceDestCheck eni false].
Proof.
  unfold launch_instance_in_az. intros H.
  apply bind_ok_inv in H as (ts & w1 & Hts & H).
  eapply steps_quiet in Hts;
    [|eapply emits_weaken; [apply is_describe_not_step|apply get_subnet_in_az_describes]].
  assert (∃ target_subnet, (
      az_subnet_gateway ← get_subnet_gateway target_subnet;
      user_data ← render_user_data template az_subnet_gateway cidr;
      random_id ← randint 10000 99999;
      new_instance_id ← EC2.run_instances
        (RunRequest (li_ami_id info) (li_instance_type info) kp sg
           target_subnet user_data ("sec-ip-vip-" +:+ pretty random_id));
      EC2.wait_instance_running new_instance_id;;
      described ← EC2.describe_instances new_instance_id;
      eni_id ← index0 (NetworkInterfaces described);
      EC2.modify_network_interface_attribute eni_id false;;
      mret new_instance_id) w1 = (Ok id, w')) as [target_subnet Hrest].
  { destruct ts as [[|c ts]|]; [by simp_run| |by simp_run]. by eexists. }
  clear H. rename Hrest into H.
  apply bind_ok_inv in H as (gw & w2 & Hgw & H).
  eapply steps_quiet in Hgw;
    [|eapply emits_weaken; [apply is_describe_not_step|apply get_subnet_gateway_describes]].
  apply bind_ok_inv in H as (ud & w3 & Hud & H).
  eapply steps_quiet in Hud; [|unfold render_user_data; emits_auto].
  apply bind_ok_inv in H as (rid & w4 & Hrid & H).
  eapply steps_quiet in Hrid; [|emits_auto].
  apply bind_ok_inv in H as (new & w5 & Hnew & H).
  apply api_ok_inv in Hnew as (cl5 & _ & ->).
  apply bind_ok_inv in H as ([] & w6 & Hwait & H).
  apply api_ok_inv in Hwait as (cl6 & _ & ->).
  apply bind_ok_inv in H as (described & w7 & Hdesc & H).
  apply api_ok_inv in Hdesc as (cl7 & _ & ->).
  apply bind_ok_inv in H as (eni & w8 & Heni & H).
  destruct (NetworkInterfaces described) as [|e enis']; simp_run.
  apply bind_ok_inv in H as ([] & w9 & Hmod & H).
  apply api_ok_inv in Hmod as (cl9 & _ & ->). simp_run.
  eexists _, _. unfold steps in *. rewrite !select_app, Hrid, Hud, Hgw, Hts.
  rewrite <- !app_assoc. done.
Qed.

(** C2, as the script has it: when provisioning completes, the instance
    was created, then awaited until running, then its source/destination
    check was disabled, and only then were its status checks awaited. *)
Theorem provisioning_order (args : arguments) (info : launch_info) (target_az : string)
    (w w' : world) (id : string) :
  provision args info target_az w = (Ok id, w') →
  ∃ req eni, steps (trace w') = steps (trace w) ++ script_order req id eni.
Proof.
  unfold provision. intros H.
  apply bind_ok_inv in H as (new & w1 & Hlaunch & H).
  apply launch_instance_in_az_steps in Hlaunch as (req & eni & Hsteps).
  apply bind_ok_inv in H as ([] & w2 & Hwait & H).
  apply api_ok_inv in Hwait as (cl & _ & ->). simp_run.
  exists req, eni. unfold steps in *. rewrite select_app, Hsteps, <- app_assoc. done.
Qed.

Lemma provisioning_order_witness :
  let info := LaunchInfo "eu-west-1a" "subnet-a" "ami-1" "t3.small" in
  let w := Demo.quiet Demo.account in
  ∃ req eni,
    steps (trace (exec (provision Demo.args info "eu-west-1b") w))
    = steps (trace w) ++ script_order req "i-7" eni.
Proof.
  intros info w.
  apply (provisioning_order Demo.args info "eu-west-1b" w
           (exec (provision Demo.args info "eu-west-1b") w) "i-7").
  vm_compute. reflexivity.
Defined.

(** The order of the specification is not the order of the script: on the
    demo account the source/destination check is disabled before the status
    checks are awaited. *)
Lemma provisioning_order_counterexample :
  let w' := exec (provision Demo.args (LaunchInfo "eu-west-1a" "subnet-a" "ami-1" "t3.small")
                    "eu-west-1b") (Demo.quiet Demo.account) in
  (∃ req, steps (trace w') = script_order req "i-7" "eni-7")
  ∧ ¬ ∃ req id eni, steps (trace w') = described_order req id eni.
Proof.
  split.
  - eexists. vm_compute. reflexivity.
  - intros (req & id & eni & H). vm_compute in H. discriminate H.
Qed.

(** ** Reconciling the routes *)

(** An API call under [try ... except: pass] returns normally, whatever
    the account and the environment, and is recorded once. *)
Lemma try_api_run (c : call) (err : exn) (body : cloud → result unit * cloud) (w : world) :
  ∃ cl ok,
    try_except (api c err body) (λ _, mret ()) w
    = (Ok (), World cl (files w) (tail (faults w)) (pings w) (rng w) (trace w ++ [Ev c ok])).
Proof.
  rewrite try_except_run. destruct (api_spec c err body w) as (r & cl & -> & _).
  destruct r as [[]|e]; simpl; eauto.
Qed.

Lemma route_loop_total (ids : list string) (new cidr : string) (w : world) :
  ∃ w' evs,
    route_loop ids new cidr w = (Ok (), w')
    ∧ trace w' = trace w ++ evs
    ∧ ev_call <$> evs = route_calls ids new cidr.
Proof.
  revert w. induction ids as [|id ids IH]; intros w; simpl.
  - exists w, []. by rewrite app_nil_r.
  - rewrite bind_run.
    destruct (try_api_run (DeleteRoute id cidr) transient (EC2.delete_route_body id cidr) w)
      as (cl1 & ok1 & Hdel).
    unfold EC2.delete_route. rewrite Hdel, bind_run.
    set (w1 := World cl1 _ _ _ _ _).
    destruct (try_api_run (CreateRoute id cidr new) transient
                (EC2.create_route_body id cidr new) w1) as (cl2 & ok2 & Hcre).
    unfold EC2.create_route. rewrite Hcre.
    set (w2 := World cl2 _ _ _ _ _).
    destruct (IH w2) as (w' & evs & Hrun & Ht & Hcalls).
    exists w', (Ev (DeleteRoute id cidr) ok1 :: Ev (CreateRoute id cidr new) ok2 :: evs).
    split_and!; [done| |].
    + rewrite Ht. subst w2 w1. simpl. by rewrite <- !app_assoc.
    + rewrite !fmap_cons, Hcalls. done.
Qed.

(** C6: once the route tables have been enumerated, [update_routes] returns
    normally whatever happens to the individual calls (a missing route, a
    refused or failed delete or create), and it has attempted, table by
    table in the order of the enumeration, the delete and then the create:
    no table is skipped because of a failure on another one. *)
Theorem every_table_is_processed (old new cidr : string) (w w1 w2 : world)
    (subnet_id : string) (ids : list string) :
  routes_subnet old new w = (Ok subnet_id, w1) →
  get_route_tables subnet_id w1 = (Ok ids, w2) →
  ∃ w' evs,
    update_routes old new cidr w = (Ok (), w')
    ∧ trace w' = trace w2 ++ evs
    ∧ ev_call <$> evs = route_calls ids new cidr
    ∧ ∀ rt_id, rt_id ∈ ids → CreateRoute rt_id cidr new ∈ ev_call <$> evs.
Proof.
  intros Hsubnet Hids.
  destruct (route_loop_total ids new cidr w2) as (w' & evs & Hrun & Ht & Hcalls).
  exists w', evs. split_and!; [|done..|].
  - unfold update_routes. by rewrite bind_run, Hsubnet, bind_run, Hids.
  - intros rt_id Hin. rewrite Hcalls. unfold route_calls.
    apply list_elem_of_bind. exists rt_id. split; [|done]. set_solver.
Qed.

(** On the demo account, with the delete and the create of the first table
    both failing, the second table still gets both calls. *)
Lemma every_table_is_processed_witness :
  let w := World Demo.account Demo.disk [false; false; false; true; true] [] [] [] in
  ∃ w' evs,
    update_routes "i-web" "i-web" "10.0.0.10/32" w = (Ok (), w')
    ∧ ev_call <$> evs = route_calls ["rtb-main"; "rtb-priv"] "i-web" "10.0.0.10/32"
    ∧ CreateRoute "rtb-priv" "10.0.0.10/32" "i-web" ∈ ev_call <$> evs.
Proof.
  intros w.
  destruct (every_table_is_processed "i-web" "i-web" "10.0.0.10/32" w
              (exec (routes_subnet "i-web" "i-web") w)
              (exec (get_route_tables "subnet-a") (exec (routes_subnet "i-web" "i-web") w))
              "subnet-a" ["rtb-main"; "rtb-priv"])
    as (w' & evs & Hrun & _ & Hcalls & Hin).
  - vm_compute. reflexivity.
  - vm_compute. reflexivity.
  - exists w', evs. split; [exact Hrun|]. split; [exact Hcalls|].
    apply Hin. constructor 2. constructor 1.
Defined.

(** ** Launching without a subnet in the target zone *)

Lemma take2_head (l : list bool) : head l = Some true → true ∈ take 2 l.
Proof. destruct l as [|a l]; intros H; simplify_eq/=. by left. Qed.

Lemma take2_second (l : list bool) : head (tail l) = Some true → true ∈ take 2 l.
Proof. destruct l as [|a [|b l]]; intros H; simplify_eq/=. right. by left. Qed.

(** With the source subnet [s] known to EC2 and no subnet of its VPC in the
    target zone, [get_subnet_in_az] finds nothing, unless one of its two
    calls fails for a transient reason; it leaves the account as it is. *)
Lemma get_subnet_in_az_none (target_az subnet_id : string) (w : world) (s : subnet) :
  head (filter (λ s, sn_id s = subnet_id) (subnets (cloud_of w))) = Some s →
  filter (EC2.matches_filter (Some (sn_vpc s)) target_az) (subnets (cloud_of w)) = [] →
  ∃ r w',
    get_subnet_in_az target_az subnet_id w = (r, w')
    ∧ cloud_of w' = cloud_of w
    ∧ (r = Ok None ∨ ∃ e, r = Raise e ∧ true ∈ take 2 (faults w)).
Proof.
  intros Hsrc Hnone. unfold get_subnet_in_az, EC2.describe_subnets_by_id,
    EC2.describe_subnets_filter.
  rewrite bind_run.
  match goal with |- context [api ?c ?e ?b w] =>
    destruct (api_spec c e b w) as (r1 & cl1 & -> & [(-> & -> & Hf)|(Hb & Hf)]) end.
  { eexists _, _. split_and!; [done..|]. right. eexists. split; [done|]. by apply take2_head. }
  destruct (filter _ (subnets (cloud_of w))) as [|s0 l] eqn:Hfilter; simplify_eq/=.
  rewrite bind_run. simpl. rewrite bind_run.
  match goal with |- context [api ?c ?e ?b ?w1] =>
    destruct (api_spec c e b w1) as (r2 & cl2 & -> & [(-> & -> & Hf2)|(Hb2 & Hf2)]) end.
  { eexists _, _. split_and!; [done..|]. right. eexists. split; [done|].
    by apply take2_second. }
  simpl in Hb2. rewrite Hnone in Hb2. simplify_eq/=.
  eexists _, _. split_and!; [done..|]. by left.
Qed.

(** C9: when the source subnet's VPC has no subnet in the target zone,
    [launch_instance_in_az] raises; it has only described subnets, so no
    instance was created and the account is unchanged; and the exception is
    the script's own [Exception("No subnet found in AZ ...")] unless one of
    the two lookups failed first for a transient reason. *)
Theorem launch_without_subnet_raises (info : launch_info)
    (target_az sg kp template cidr : string) (w : world) (s : subnet) :
  head (filter (λ s, sn_id s = li_subnet_id info) (subnets (cloud_of w))) = Some s →
  filter (EC2.matches_filter (Some (sn_vpc s)) target_az) (subnets (cloud_of w)) = [] →
  ∃ e w' evs,
    launch_instance_in_az info target_az sg kp template cidr w = (Raise e, w')
    ∧ cloud_of w' = cloud_of w
    ∧ trace w' = trace w ++ evs
    ∧ Forall (λ ev, is_describe (ev_call ev)) evs
    ∧ select is_launch evs = []
    ∧ (true ∉ take 2 (faults w) → e = PyException ("No subnet found in AZ " +:+ target_az)).
Proof.
  intros Hsrc Hnone.
  destruct (get_subnet_in_az_none target_az _ w s Hsrc Hnone) as (r & w' & Hrun & Hcl & Hr).
  destruct (emits_run _ _ _ _ _ (get_subnet_in_az_describes target_az (li_subnet_id info)) Hrun)
    as (evs & Ht & Hevs).
  assert (select is_launch evs = []) as Hlaunch.
  { apply select_none. eapply Forall_impl; [exact Hevs|]. intros [[] ?]; simpl; tauto. }
  unfold launch_instance_in_az. rewrite bind_run, Hrun.
  destruct Hr as [->|(e & -> & Hf)].
  - exists (PyException ("No subnet found in AZ " +:+ target_az)), w', evs.
    split_and!; done.
  - exists e, w', evs. split_and!; done.
Qed.

Lemma launch_without_subnet_raises_witness :
  let info := LaunchInfo "eu-west-1a" "subnet-a" "ami-1" "t3.small" in
  let w := Demo.quiet Demo.account in
  ∃ w', launch_instance_in_az info "eu-west-1c" "sg-1" "key-1" "user_data.j2" "10.0.0.10/32" w
        = (Raise (PyException "No subnet found in AZ eu-west-1c"), w')
        ∧ cloud_of w' = Demo.account.
Proof.
  intros info w.
  destruct (launch_without_subnet_raises info "eu-west-1c" "sg-1" "key-1" "user_data.j2"
              "10.0.0.10/32" w Demo.subnet_a)
    as (e & w' & evs & Hrun & Hcl & _ & _ & _ & He).
  - vm_compute. reflexivity.
  - vm_compute. reflexivity.
  - assert (e = PyException "No subnet found in AZ eu-west-1c") as Hexn.
    { apply He. cbn. intros H. inversion H. }
    exists w'. rewrite <- Hexn. split; [exact Hrun|exact Hcl].
Defined.

(** ** Abandoned cycles *)

Lemma sleep_after (n : Z) (w : world) (cl : cloud) (evs : list event) :
  sleep n (after w cl evs) = (Ok (), after w cl (evs ++ [Ev (Sleep n) true])).
Proof. unfold sleep, log, after. simpl. by rewrite app_assoc. Qed.

Lemma api_after {A} (c : call) (err : exn) (body : cloud → result A * cloud)
    (w : world) (cl : cloud) (evs : list event) :
  api c err body (after w cl evs)
  = ((body cl).1, after w (body cl).2 (evs ++ [Ev c (is_ok (body cl).1)])).
Proof. rewrite api_calm by apply calm_after. simpl. by rewrite after_after. Qed.

Lemma calm_is_after (w : world) : calm w → w = after w (cloud_of w) [].
Proof. unfold calm, after. destruct w; simpl. intros ->. by rewrite app_nil_r. Qed.

(** Evaluates a computation step by step in a calm world. *)
Ltac run_calm :=
  repeat (rewrite ?bind_run, ?ret_run, ?api_after, ?sleep_after; cbn [fst snd is_ok]).

Lemma replace_instance_abandoned (args : arguments) (current_instance_id : string)
    (w : world) (cl : cloud) (evs0 : list event) (a : string) (rest : list string) :
  zones cl = a :: rest →
  filter (EC2.matches_filter None a) (subnets cl) = [] ∨ filter (λ z, z ≠ a) rest = [] →
  ∃ evs,
    replace_instance args current_instance_id None (after w cl evs0)
      = (Ok current_instance_id, after w cl (evs0 ++ evs ++ [Ev (Sleep 5) true]))
    ∧ Forall (λ e, is_describe (ev_call e)) evs.
Proof.
  intros Hzones Hnone.
  unfold replace_instance, plan_replacement, get_other_azs,
    EC2.describe_availability_zones, EC2.describe_subnets_filter.
  run_calm. rewrite Hzones. cbn [index0]. run_calm.
  destruct (filter (EC2.matches_filter None a) (subnets cl)) as [|s l] eqn:Hs.
  - run_calm. eexists [_; _]. rewrite <- !app_assoc. split; [done|]. by repeat constructor.
  - destruct Hnone as [|Hrest]; [done|].
    run_calm. cbn [li_az]. rewrite Hzones, filter_cons_False, Hrest by (intros Hne; by apply Hne).
    run_calm. eexists [_; _; _]. rewrite <- !app_assoc. split; [done|]. by repeat constructor.
Qed.

(** C8, as the script has it: when the instance cannot be described and
    either no subnet exists in the first listed zone or no other zone
    exists, the cycle makes no call beyond describing zones and subnets,
    sleeps 5 seconds and ends normally with the same instance id and the
    same account; the loop then starts its next iteration from that id,
    which is all it remembers. *)
Theorem abandoned_cycle_retries (args : arguments) (current_instance_id : string)
    (w w1 : world) (a : string) (rest : list string) (n : nat) :
  get_instance_info current_instance_id w = (Ok None, w1) →
  calm w1 →
  zones (cloud_of w) = a :: rest →
  filter (EC2.matches_filter None a) (subnets (cloud_of w)) = []
    ∨ filter (λ z, z ≠ a) rest = [] →
  ∃ w' evs,
    cycle args current_instance_id w = (Ok current_instance_id, w')
    ∧ cloud_of w' = cloud_of w
    ∧ trace w' = trace w1 ++ evs ++ [Ev (Sleep 5) true]
    ∧ Forall (λ e, is_describe (ev_call e)) evs
    ∧ select is_launch (evs ++ [Ev (Sleep 5) true]) = []
    ∧ monitor (S n) args current_instance_id w = monitor n args current_instance_id w'.
Proof.
  intros Hinfo Hcalm Hzones Hnone.
  assert (w1 = after w1 (cloud_of w) []) as Hw1.
  { destruct (get_instance_info_total current_instance_id w) as (i & ok & Ht).
    rewrite Ht in Hinfo. rewrite (calm_is_after w1 Hcalm) at 1. by simplify_eq. }
  destruct (replace_instance_abandoned args current_instance_id w1 (cloud_of w) [] a rest
              Hzones Hnone) as (evs & Hrep & Hevs).
  rewrite <- Hw1 in Hrep. simpl in Hrep.
  assert (cycle args current_instance_id w
          = (Ok current_instance_id, after w1 (cloud_of w) (evs ++ [Ev (Sleep 5) true])))
    as Hrun.
  { unfold cycle. rewrite bind_run, Hinfo. simpl. by rewrite bind_run, ret_run. }
  exists (after w1 (cloud_of w) (evs ++ [Ev (Sleep 5) true])), evs.
  split_and!; [done..| |].
  - rewrite select_app, select_none; [done|].
    eapply Forall_impl; [exact Hevs|]. intros [[] ?]; simpl; tauto.
  - simpl. by rewrite bind_run, Hrun.
Qed.

Lemma abandoned_cycle_retries_witness :
  let w := Demo.quiet Lonely.one_zone in
  ∃ w', cycle Demo.args "i-web" w = (Ok "i-web", w')
        ∧ cloud_of w' = Lonely.one_zone
        ∧ monitor 3 Demo.args "i-web" w = monitor 2 Demo.args "i-web" w'.
Proof.
  intros w.
  destruct (abandoned_cycle_retries Demo.args "i-web" w (exec (get_instance_info "i-web") w)
              "eu-west-1a" [] 2)
    as (w' & evs & Hrun & Hcl & _ & _ & _ & Hnext).
  - vm_compute. reflexivity.
  - vm_compute. reflexivity.
  - vm_compute. reflexivity.
  - right. vm_compute. reflexivity.
  - exists w'. split; [exact Hrun|]. split; [exact Hcl|exact Hnext].
Defined.

(** When another zone exists but the VPC has no subnet in it, the cycle is
    not abandoned: [launch_instance_in_az] raises, the exception leaves the
    loop and the process exits with status 1. *)
Lemma missing_target_subnet_is_fatal :
  let w := Demo.quiet Lonely.account in
  (get_instance_info "i-web" w).1 = Ok None
  ∧ (plan_replacement None w).1
      = Ok (Some (LaunchInfo "eu-west-1a" "subnet-a" default_ami "t3.micro", "eu-west-1b"))
  ∧ filter (EC2.matches_filter (Some "vpc-1") "eu-west-1b") (subnets Lonely.account) = []
  ∧ (cycle Demo.args "i-web" w).1 = Raise (PyException "No subnet found in AZ eu-west-1b")
  ∧ select is_launch (trace (exec (cycle Demo.args "i-web") w)) = []
  ∧ ∀ n, (main (S n) Demo.args w).1 = Some 1.
Proof.
  intros w. split_and!; vm_compute; reflexivity.
Qed.

(** ** Reconciliation when no call fails for a transient reason *)

Lemma get_instance_info_after (id : string) (w : world) (cl : cloud) (evs : list event) :
  get_instance_info id (after w cl evs)
  = (Ok (info_of cl id),
     after w cl (evs ++ [Ev (DescribeInstances id) (bool_decide (is_Some (instances cl !! id)))])).
Proof. rewrite get_instance_info_calm by apply calm_after. simpl. by rewrite after_after. Qed.

Lemma routes_subnet_after (old new : string) (w : world) (cl : cloud) (evs : list event) :
  ∃ evs',
    routes_subnet old new (after w cl evs)
    = (match routes_subnet_of cl old new with
       | Some s => Ok s
       | None => Raise TypeError
       end, after w cl (evs ++ evs')).
Proof.
  unfold routes_subnet, routes_subnet_of.
  rewrite bind_run, get_instance_info_after.
  destruct (info_of cl old) as [i|].
  - rewrite ret_run. eauto.
  - rewrite bind_run, get_instance_info_after.
    destruct (info_of cl new) as [i|]; simpl.
    + rewrite ret_run, <- app_assoc. eauto.
    + unfold raise. rewrite <- app_assoc. eauto.
Qed.

Lemma get_route_tables_after (subnet_id : string) (w : world) (cl : cloud) (evs : list event) :
  ∃ r evs',
    get_route_tables subnet_id (after w cl evs) = (r, after w cl (evs ++ evs'))
    ∧ match subnet_vpc cl subnet_id with
      | Some v => r = Ok (table_ids cl v)
      | None => is_ok r = false
      end.
Proof.
  unfold get_route_tables, subnet_vpc, EC2.describe_subnets_by_id, EC2.describe_route_tables.
  run_calm.
  destruct (filter (λ s, sn_id s = subnet_id) (subnets cl)) as [|s l]; simpl.
  - eauto.
  - run_calm. rewrite <- app_assoc. eauto.
Qed.

Lemma try_api_after (c : call) (err : exn) (body : cloud → result unit * cloud)
    (w : world) (cl : cloud) (evs : list event) :
  try_except (api c err body) (λ _, mret ()) (after w cl evs)
  = (Ok (), after w (body cl).2 (evs ++ [Ev c (is_ok (body cl).1)])).
Proof.
  rewrite try_except_run, api_after. by destruct (body cl).1 as [[]|].
Qed.

Lemma route_loop_after (ids : list string) (new cidr : string) (w : world) (cl : cloud)
    (evs : list event) :
  route_loop ids new cidr (after w cl evs)
  = (Ok (), after w (foldl (route_step new cidr) cl ids) (evs ++ route_events new cidr cl ids)).
Proof.
  revert cl evs. induction ids as [|id ids IH]; intros cl evs; simpl.
  - by rewrite ret_run, app_nil_r.
  - unfold EC2.delete_route, EC2.create_route.
    rewrite bind_run, try_api_after, bind_run, try_api_after, IH.
    by rewrite <- !app_assoc.
Qed.

(** One iteration repoints the table it names and touches nothing else. *)
Lemma route_step_alter (new cidr : string) (cl : cloud) (id : string) :
  route_step new cidr cl id = EC2.with_route_tables (alter (repoint cl new cidr) id) cl.
Proof.
  unfold route_step, EC2.delete_route_body, EC2.create_route_body, repoint,
    EC2.with_route_tables, EC2.set_routes.
  destruct cl as [ins sns rts zs es nx]; simpl.
  destruct (rts !! id) as [[v r]|] eqn:Ht; simpl.
  - destruct (r !! cidr) as [x|] eqn:Hr; simpl.
    + rewrite lookup_insert_eq. simpl. rewrite lookup_delete_eq.
      destruct (ins !! new) as [i|]; simpl; f_equal.
      * rewrite insert_insert_eq, insert_delete_eq. apply map_eq. intros j.
        rewrite lookup_insert, lookup_alter, Ht. by case_decide.
      * apply map_eq. intros j. rewrite lookup_insert, lookup_alter, Ht. by case_decide.
    + rewrite Ht. simpl. rewrite Hr.
      destruct (ins !! new) as [i|]; simpl; f_equal.
      * apply map_eq. intros j. rewrite lookup_insert, lookup_alter, Ht. by case_decide.
      * apply map_eq. intros j. rewrite lookup_alter, Ht.
        case_decide; [subst; rewrite Ht; simpl; by rewrite delete_id|done].
  - rewrite Ht. f_equal. by rewrite alter_id'.
Qed.

Lemma repoint_idemp (cl : cloud) (new cidr : string) (t : route_table) :
  repoint cl new cidr (repoint cl new cidr t) = repoint cl new cidr t.
Proof.
  unfold repoint, EC2.set_routes. destruct t as [v r]; simpl.
  destruct (instances cl !! new); f_equal.
  - apply insert_insert_eq.
  - apply delete_delete_eq.
Qed.

Lemma foldl_alter_lookup {A} (f : A → A) (ids : list string) (m : gmap string A) (k : string) :
  (∀ x, f (f x) = f x) →
  foldl (λ m id, alter f id m) m ids !! k = if decide (k ∈ ids) then f <$> m !! k else m !! k.
Proof.
  intros Hf. revert m. induction ids as [|id ids IH]; intros m.
  - destruct (decide (k ∈ [])) as [Hin|_]; [by apply elem_of_nil in Hin|done].
  - cbn [foldl]. rewrite IH, lookup_alter.
    destruct (decide (id = k)) as [->|Hne].
    + destruct (decide (k ∈ k :: ids)) as [_|Hn]; [|by destruct Hn; left].
      destruct (decide (k ∈ ids)); [|done].
      destruct (m !! k); simpl; by rewrite ?Hf.
    + destruct (decide (k ∈ ids)) as [Hin|Hin].
      * destruct (decide (k ∈ id :: ids)) as [_|Hn]; [done|by destruct Hn; right].
      * destruct (decide (k ∈ id :: ids)) as [Hc|_]; [|done].
        apply elem_of_cons in Hc as [->|Hc]; done.
Qed.

Lemma elem_of_table_ids (cl : cloud) (v k : string) :
  k ∈ table_ids cl v ↔ ∃ t, route_tables cl !! k = Some t ∧ rt_vpc t = v.
Proof.
  unfold table_ids. rewrite list_elem_of_fmap. split.
  - intros ([k' t] & -> & Hin). apply list_elem_of_filter in Hin as [Hv Hin].
    apply elem_of_map_to_list in Hin. eauto.
  - intros (t & Ht & Hv). exists (k, t). split; [done|].
    apply list_elem_of_filter. split; [done|]. by apply elem_of_map_to_list.
Qed.

Lemma foldl_route_step (new cidr : string) (cl : cloud) (ids : list string) :
  foldl (route_step new cidr) cl ids
  = EC2.with_route_tables (λ m, foldl (λ m id, alter (repoint cl new cidr) id m) m ids) cl.
Proof.
  revert cl. induction ids as [|id ids IH]; intros cl; simpl.
  - by destruct cl.
  - rewrite route_step_alter, IH. done.
Qed.

(** Over the tables of a VPC, the loop repoints each of them. *)
Lemma route_loop_cloud (new cidr v : string) (cl : cloud) :
  foldl (route_step new cidr) cl (table_ids cl v)
  = EC2.with_route_tables (fmap (reconcile_table cl v new cidr)) cl.
Proof.
  rewrite foldl_route_step. unfold EC2.with_route_tables. f_equal.
  apply map_eq. intros k.
  rewrite foldl_alter_lookup by apply repoint_idemp.
  rewrite lookup_fmap. unfold reconcile_table.
  destruct (route_tables cl !! k) as [t|] eqn:Ht; simpl.
  - destruct (decide (rt_vpc t = v)) as [Hv|Hv].
    + rewrite decide_True; [done|]. apply elem_of_table_ids. eauto.
    + rewrite decide_False; [done|].
      intros (t' & Ht' & Hv')%elem_of_table_ids. congruence.
  - by case_decide.
Qed.

(** In a calm world [update_routes] leaves the account [reconciled]; it
    returns normally exactly when the VPC could be determined. *)
Lemma update_routes_after (old new cidr : string) (w : world) (cl : cloud) (evs : list event) :
  ∃ r evs',
    update_routes old new cidr (after w cl evs)
    = (r, after w (reconciled cl old new cidr) (evs ++ evs'))
    ∧ match reconciled_vpc cl old new with
      | Some v => r = Ok () ∧ ∃ evs0, evs' = evs0 ++ route_events new cidr cl (table_ids cl v)
      | None => is_ok r = false
      end.
Proof.
  unfold update_routes, reconciled, reconciled_vpc.
  destruct (routes_subnet_after old new w cl evs) as (evs1 & Hsub).
  rewrite bind_run, Hsub.
  destruct (routes_subnet_of cl old new) as [s|]; simpl; [|by eauto].
  destruct (get_route_tables_after s w cl (evs ++ evs1)) as (r & evs2 & Hids & Hr).
  rewrite bind_run, Hids.
  destruct (subnet_vpc cl s) as [v|]; simpl in *.
  - subst r. rewrite route_loop_after, route_loop_cloud.
    eexists _, _. split; [by rewrite <- !app_assoc|]. split; [done|].
    exists (evs1 ++ evs2). by rewrite <- !app_assoc.
  - destruct r as [ids|e]; [done|]. rewrite <- app_assoc. eauto.
Qed.

Lemma reconcile_table_idemp (cl : cloud) (v new cidr : string) (t : route_table) :
  reconcile_table cl v new cidr (reconcile_table cl v new cidr t)
  = reconcile_table cl v new cidr t.
Proof.
  unfold reconcile_table. destruct (decide (rt_vpc t = v)) as [Hv|Hv].
  - rewrite decide_True by done. apply repoint_idemp.
  - by rewrite decide_False.
Qed.

Lemma reconciled_idemp (cl : cloud) (old new cidr : string) :
  reconciled (reconciled cl old new cidr) old new cidr = reconciled cl old new cidr.
Proof.
  unfold reconciled. destruct (reconciled_vpc cl old new) as [v|] eqn:Hv.
  - change (reconciled_vpc (EC2.with_route_tables (fmap (reconcile_table cl v new cidr)) cl)
              old new) with (reconciled_vpc cl old new).
    rewrite Hv. unfold EC2.with_route_tables. simpl. f_equal.
    rewrite <- map_fmap_compose. apply map_fmap_ext. intros id t _. simpl.
    apply (reconcile_table_idemp cl v new cidr t).
  - by rewrite Hv.
Qed.

(** C4: with no call failing for a transient reason, running
    [update_routes] a second time with the same arguments leaves the route
    tables (and the whole account) as the first run left them. *)
Theorem update_routes_idempotent (old new cidr : string) (w : world) :
  calm w →
  let once := exec (update_routes old new cidr) w in
  let twice := exec (update_routes old new cidr) once in
  route_tables (cloud_of twice) = route_tables (cloud_of once)
  ∧ cloud_of twice = cloud_of once
  ∧ cloud_of once = reconciled (cloud_of w) old new cidr.
Proof.
  intros Hcalm once twice.
  destruct (update_routes_after old new cidr w (cloud_of w) []) as (r1 & evs1 & Hrun1 & _).
  rewrite <- (calm_is_after w Hcalm) in Hrun1.
  destruct (update_routes_after old new cidr w (reconciled (cloud_of w) old new cidr)
              ([] ++ evs1)) as (r2 & evs2 & Hrun2 & _).
  cbn [app] in Hrun1, Hrun2.
  assert (cloud_of once = reconciled (cloud_of w) old new cidr) as Honce.
  { subst once. unfold exec. by rewrite Hrun1. }
  assert (cloud_of twice = cloud_of once) as Htwice.
  { rewrite Honce. subst twice once. unfold exec. rewrite Hrun1. simpl.
    rewrite Hrun2. simpl. apply reconciled_idemp. }
  split_and!; [by rewrite Htwice|done..].
Qed.

Lemma update_routes_idempotent_witness :
  let w := Demo.quiet Demo.account in
  let once := exec (update_routes "i-gone" "i-web" "10.0.0.10/32") w in
  let twice := exec (update_routes "i-gone" "i-web" "10.0.0.10/32") once in
  route_tables (cloud_of twice) = route_tables (cloud_of once).
Proof.
  intros w. apply (update_routes_idempotent "i-gone" "i-web" "10.0.0.10/32" w).
  reflexivity.
Defined.

(** ** Convergence of the route tables *)

Lemma route_events_calls (new cidr : string) (cl : cloud) (ids : list string) :
  ev_call <$> route_events new cidr cl ids = route_calls ids new cidr.
Proof.
  revert cl. induction ids as [|id ids IH]; intros cl; [done|].
  cbn [route_events]. rewrite !fmap_cons, IH. done.
Qed.

(** When the new instance exists and every table to visit holds a route to
    [cidr], every delete and every create succeeds. *)
Lemma route_events_ok (new cidr : string) (cl : cloud) (ids : list string) :
  is_Some (instances cl !! new) →
  (∀ id, id ∈ ids →
     ∃ t, route_tables cl !! id = Some t ∧ is_Some (rt_routes t !! cidr)) →
  Forall (λ e, ev_ok e = true) (route_events new cidr cl ids).
Proof.
  intros [i Hi]. revert cl Hi. induction ids as [|id ids IH]; intros cl Hi Hids; [done|].
  cbn [route_events].
  destruct (Hids id) as (t & Ht & [x Hx]); [by left|].
  assert ((EC2.delete_route_body id cidr cl)
          = (Ok (), EC2.with_route_tables
                      (<[id := EC2.set_routes (delete cidr (rt_routes t)) t]>) cl)) as Hdel.
  { unfold EC2.delete_route_body. by rewrite Ht, Hx. }
  rewrite Hdel. cbn [fst snd].
  assert ((EC2.create_route_body id cidr new
             (EC2.with_route_tables
                (<[id := EC2.set_routes (delete cidr (rt_routes t)) t]>) cl)).1 = Ok ()) as Hcre.
  { unfold EC2.create_route_body. cbn [route_tables EC2.with_route_tables instances].
    rewrite lookup_insert_eq. cbn [rt_routes EC2.set_routes].
    by rewrite lookup_delete_eq, Hi. }
  rewrite Hcre. repeat constructor.
  apply IH.
  - by rewrite route_step_alter.
  - intros id' Hin. rewrite route_step_alter. cbn [route_tables EC2.with_route_tables].
    rewrite lookup_alter. destruct (decide (id = id')) as [<-|Hne].
    + rewrite Ht. eexists. split; [done|]. unfold repoint. rewrite Hi.
      cbn [rt_routes EC2.set_routes]. rewrite lookup_insert_eq. eauto.
    + apply Hids. by right.
Qed.

Lemma filter_key_singleton (m : gmap string string) (k x : string) :
  m !! k = Some x → filter (λ p, p.1 = k) m = {[ k := x ]}.
Proof.
  intros Hk. apply map_eq. intros j. destruct (decide (j = k)) as [->|Hne].
  - rewrite lookup_singleton_eq. by apply map_lookup_filter_Some.
  - rewrite lookup_singleton_ne by done. apply map_lookup_filter_None.
    right. intros y _. simpl. done.
Qed.

Lemma filter_fst_prod_map {A} (P : string * A → Prop) `{!∀ p, Decision (P p)}
    (g : A → A) (l : list (string * A)) :
  (∀ p, P (prod_map id g p) ↔ P p) →
  (filter P (prod_map id g <$> l)).*1 = (filter P l).*1.
Proof.
  intros HP. induction l as [|p l IH]; [done|].
  rewrite fmap_cons, !filter_cons.
  destruct (decide (P p)) as [Hp|Hp].
  - rewrite decide_True by (by apply HP). rewrite !fmap_cons, IH. by destruct p.
  - rewrite decide_False by (by rewrite HP). done.
Qed.

Lemma table_ids_reconciled (cl : cloud) (old new cidr v : string) :
  table_ids (reconciled cl old new cidr) v = table_ids cl v.
Proof.
  unfold reconciled. destruct (reconciled_vpc cl old new) as [v'|]; [|done].
  unfold table_ids. cbn [route_tables EC2.with_route_tables].
  rewrite map_to_list_fmap. apply filter_fst_prod_map.
  intros [id t]. unfold reconcile_table. simpl.
  by destruct (decide (rt_vpc t = v')).
Qed.

(** C5: in a calm world, when the new instance exists and each of the N
    route tables of the reconciled VPC holds a route to [cidr],
    [update_routes] returns normally, every delete and create it issued
    succeeded, the VPC still has the same N tables, and each of them holds
    exactly one route to [cidr], pointing at the new instance. *)
Theorem update_routes_converges (old new cidr v : string) (w : world) :
  calm w →
  is_Some (instances (cloud_of w) !! new) →
  reconciled_vpc (cloud_of w) old new = Some v →
  (∀ id t, route_tables (cloud_of w) !! id = Some t → rt_vpc t = v →
           is_Some (rt_routes t !! cidr)) →
  ∃ w' evs0 evs1,
    update_routes old new cidr w = (Ok (), w')
    ∧ trace w' = trace w ++ evs0 ++ evs1
    ∧ ev_call <$> evs1 = route_calls (table_ids (cloud_of w) v) new cidr
    ∧ Forall (λ e, ev_ok e = true) evs1
    ∧ table_ids (cloud_of w') v = table_ids (cloud_of w) v
    ∧ ∀ id t, route_tables (cloud_of w) !! id = Some t → rt_vpc t = v →
        ∃ t', route_tables (cloud_of w') !! id = Some t'
              ∧ rt_vpc t' = v
              ∧ rt_routes t' !! cidr = Some new
              ∧ map_to_list (filter (λ p, p.1 = cidr) (rt_routes t')) = [(cidr, new)].
Proof.
  intros Hcalm Hnew Hvpc Hstale.
  destruct (update_routes_after old new cidr w (cloud_of w) []) as (r & evs & Hrun & Hr).
  rewrite <- (calm_is_after w Hcalm) in Hrun. rewrite Hvpc in Hr.
  destruct Hr as (-> & evs0 & ->).
  eexists _, evs0, _. split; [exact Hrun|]. cbn [trace after cloud_of].
  split_and!.
  - done.
  - apply route_events_calls.
  - apply route_events_ok; [done|]. intros id (t & Ht & Hv)%elem_of_table_ids. eauto.
  - apply table_ids_reconciled.
  - intros id t Ht Hv. unfold reconciled. rewrite Hvpc.
    cbn [route_tables EC2.with_route_tables]. rewrite lookup_fmap, Ht. simpl.
    eexists. split; [done|]. unfold reconcile_table. rewrite decide_True by done.
    unfold repoint. destruct Hnew as [i ->]. cbn [rt_vpc rt_routes EC2.set_routes].
    split; [done|]. assert (<[cidr:=new]> (rt_routes t) !! cidr = Some new) as Hl
      by apply lookup_insert_eq.
    split; [done|]. by rewrite (filter_key_singleton _ _ _ Hl), map_to_list_singleton.
Qed.

Lemma update_routes_converges_witness :
  let w := Demo.quiet Demo.account in
  ∃ w', update_routes "i-gone" "i-web" "10.0.0.10/32" w = (Ok (), w')
        ∧ ∃ t', route_tables (cloud_of w') !! "rtb-priv" = Some t'
                ∧ rt_routes t' !! "10.0.0.10/32" = Some "i-web".
Proof.
  intros w.
  destruct (update_routes_converges "i-gone" "i-web" "10.0.0.10/32" "vpc-1" w)
    as (w' & evs0 & evs1 & Hrun & _ & _ & _ & _ & Hall).
  - reflexivity.
  - vm_compute. eexists. reflexivity.
  - vm_compute. reflexivity.
  - intros id t Ht Hv. unfold w, Demo.quiet, Demo.account in Ht. cbn [cloud_of route_tables] in Ht.
    apply lookup_insert_Some in Ht as [[<- <-]|[_ Ht]]; [by eexists|].
    apply lookup_singleton_Some in Ht as [<- <-]. by eexists.
  - exists w'. split; [exact Hrun|].
    destruct (Hall "rtb-priv" Demo.rt_priv) as (t' & Ht' & _ & Hroute & _).
    + vm_compute. reflexivity.
    + reflexivity.
    + exists t'. split; [exact Ht'|exact Hroute].
Defined.

(** ** Lookup failures *)

(** A plan that is abandoned has only described zones and subnets, and has
    slept 5 seconds. *)
Lemma plan_replacement_none_inv (info : option instance_info) (w w' : world) :
  plan_replacement info w = (Ok None, w') →
  cloud_of w' = cloud_of w
  ∧ ∃ evs, trace w' = trace w ++ evs ++ [Ev (Sleep 5) true]
      ∧ Forall (λ e, is_describe (ev_call e)) evs.
Proof.
  unfold plan_replacement, get_other_azs, EC2.describe_availability_zones,
    EC2.describe_subnets_filter.
  intros H. apply bind_ok_inv in H as (k & w1 & Hknown & H).
  assert (cloud_of w1 = cloud_of w
          ∧ ∃ evs1, Forall (λ e, is_describe (ev_call e)) evs1
              ∧ match k with
                | None => trace w1 = trace w ++ evs1 ++ [Ev (Sleep 5) true]
                | Some _ => trace w1 = trace w ++ evs1
                end) as (Hcl1 & evs1 & Hevs1 & Ht1).
  { destruct info as [i|].
    - simp_run. split; [done|]. exists []. by rewrite app_nil_r.
    - apply bind_ok_inv in Hknown as (azs & wa & Ha & Hknown).
      apply api_ok_inv in Ha as (cl & Hb & ->). simp_run.
      apply bind_ok_inv in Hknown as (z & wb & Hz & Hknown).
      destruct (zones (cloud_of w)) as [|z' zs]; simp_run.
      apply bind_ok_inv in Hknown as (found & wc & Hf & Hknown).
      apply api_ok_inv in Hf as (cl & Hb & ->). simp_run.
      destruct (filter _ _).
      + apply bind_ok_inv in Hknown as ([] & wd & Hs & Hknown).
        unfold sleep, log in Hs. simp_run.
        split; [done|].
        exists [Ev DescribeAvailabilityZones true; Ev (DescribeSubnetsFilter None z) true].
        split; [by repeat constructor|]. by rewrite <- !app_assoc.
      + simp_run. split; [done|].
        exists [Ev DescribeAvailabilityZones true; Ev (DescribeSubnetsFilter None z) true].
        split; [by repeat constructor|]. by rewrite <- !app_assoc. }
  destruct k as [k|].
  - apply bind_ok_inv in H as (others & w2 & Ho & H).
    apply bind_ok_inv in Ho as (azs & wa & Ha & Ho).
    apply api_ok_inv in Ha as (cl & Hb & ->). simp_run.
    destruct (filter _ _); [|by simp_run].
    apply bind_ok_inv in H as ([] & wd & Hs & H). unfold sleep, log in Hs. simp_run.
    split; [done|]. exists (evs1 ++ [Ev DescribeAvailabilityZones true]).
    rewrite Ht1, <- !app_assoc. split; [done|].
    apply Forall_app. split; [done|]. by repeat constructor.
  - simp_run. split; [done|]. by exists evs1.
Qed.

(** What a successful [provision] adds to the trace. *)
Lemma provision_trace (args : arguments) (info : launch_info) (target_az : string)
    (w w' : world) (id : string) :
  provision args info target_az w = (Ok id, w') →
  ∃ evs req eni,
    trace w' = trace w ++ evs
    ∧ steps evs = script_order req id eni.
Proof.
  intros H.
  assert (emits (λ _, True) (provision args info target_az)) as Hem.
  { unfold provision. apply emits_bind; [|intros; unfold EC2.wait_instance_status_ok; emits_auto].
    eapply emits_weaken; [|apply launch_instance_in_az_no_probe]. done. }
  destruct (emits_run _ _ _ _ _ Hem H) as (evs & Ht & _).
  unfold provision in H.
  apply bind_ok_inv in H as (new & w1 & Hlaunch & H).
  apply launch_instance_in_az_steps in Hlaunch as (req & eni & Hsteps).
  apply bind_ok_inv in H as ([] & w2 & Hwait & H).
  apply api_ok_inv in Hwait as (cl & _ & ->). simp_run.
  exists evs, req, eni. split; [done|].
  assert (steps (trace w ++ evs) = steps (trace w) ++ script_order req id eni) as Hall.
  { rewrite <- Ht. unfold steps in *. rewrite select_app, Hsteps, <- app_assoc. done. }
  unfold steps in *. rewrite select_app in Hall. by apply app_inv_head in Hall.
Qed.

Lemma routes_subnet_describes (old new : string) : emits is_describe (routes_subnet old new).
Proof.
  unfold routes_subnet.
  repeat first [ apply get_instance_info_emits; simpl; tauto | emits_step ].
Qed.

Lemma get_route_tables_describes (subnet_id : string) :
  emits is_describe (get_route_tables subnet_id).
Proof.
  unfold get_route_tables, EC2.describe_subnets_by_id, EC2.describe_route_tables.
  emits_auto.
Qed.

(** What a successful [switch_over] has done: the 30 second grace period, the
    lookups of [update_routes], the delete and the create on each of the
    tables these lookups found, and the request to terminate the old
    instance. *)
Lemma switch_over_trace (args : arguments) (current new r : string) (w w' : world) :
  switch_over args current new w = (Ok r, w') →
  r = new
  ∧ ∃ subnet_id wa ids wb pre routes ok,
      routes_subnet current new (log (Ev (Sleep 30) true) w) = (Ok subnet_id, wa)
      ∧ get_route_tables subnet_id wa = (Ok ids, wb)
      ∧ trace wb = trace w ++ [Ev (Sleep 30) true] ++ pre
      ∧ Forall (λ e, is_describe (ev_call e)) pre
      ∧ trace w' = trace wb ++ routes ++ [Ev (TerminateInstances current) ok]
      ∧ ev_call <$> routes = route_calls ids new (route_destination args).
Proof.
  unfold switch_over, update_routes. intros H.
  apply bind_ok_inv in H as ([] & w1 & Hsleep & H).
  apply bind_ok_inv in H as ([] & w2 & Hroutes & H).
  apply bind_ok_inv in H as ([] & w3 & Hterm & H).
  apply bind_ok_inv in Hroutes as (subnet_id & wa & Hsub & Hroutes).
  apply bind_ok_inv in Hroutes as (ids & wb & Hids & Hloop).
  destruct (emits_run _ _ _ _ _ (routes_subnet_describes current new) Hsub)
    as (e1 & Ht1 & He1).
  destruct (emits_run _ _ _ _ _ (get_route_tables_describes subnet_id) Hids)
    as (e2 & Ht2 & He2).
  destruct (route_loop_total ids new (route_destination args) wb)
    as (w2' & e3 & Hrun & Ht3 & Hcalls).
  rewrite Hrun in Hloop.
  unfold EC2.terminate_instances in Hterm.
  match type of Hterm with try_except (api ?c ?e ?b) _ _ = _ =>
    destruct (try_api_run c e b w2) as (cl & ok & Hrun') end.
  rewrite Hrun' in Hterm. unfold sleep in Hsleep.
  simp_run. split; [done|].
  exists subnet_id, wa, ids, wb, (e1 ++ e2), e3, ok. split_and!; [done..| | | |done].
  - rewrite Ht2, Ht1. simpl. by rewrite <- !app_assoc.
  - by apply Forall_app.
  - rewrite Ht3. by rewrite <- !app_assoc.
Qed.

(** C10: [get_instance_info] never raises; whenever the code inside its
    [try] raises, whatever the exception, and in particular when the API call
    fails for a transient reason although the instance exists, it returns
    [None]; the cycle then decides to replace, with reason "not found" and
    without probing, and carries the replacement out.  A cycle that ends
    normally after such a lookup has either abandoned its plan (it described
    zones and subnets, slept 5 seconds and kept its instance and the account),
    or gone through the whole failover: it planned from the first listed
    zone, the replacement was created and made ready, the 30 second grace
    period was observed, the route tables were enumerated, the delete and the
    create were attempted on each of them, the termination of the instance
    that could not be described was requested, and after a 5 second sleep
    the cycle returns the replacement's id. *)
Theorem lookup_failure_is_not_found (args : arguments) (id : string) (w : world) :
  ∃ info w1,
    get_instance_info id w = (Ok info, w1)
    ∧ (∀ e w', get_instance_info_body id w = (Raise e, w') → info = None ∧ w1 = w')
    ∧ (head (faults w) = Some true → info = None)
    ∧ (info = None →
         check_replacement args info w1 = (Ok (true, "not found", false), w1)
         ∧ (true, "not found") = spelled (Replace NotFound)
         ∧ cycle args id w = replace_instance args id None w1
         ∧ ∀ r w', cycle args id w = (Ok r, w') →
             (r = id ∧ cloud_of w' = cloud_of w
              ∧ ∃ evs, trace w' = trace w1 ++ evs ++ [Ev (Sleep 5) true]
                  ∧ Forall (λ e, is_describe (ev_call e)) evs)
             ∨ (∃ known target_az wp w2 launch req eni subnet_id wa ids wb pre routes ok,
                  plan_replacement None w1 = (Ok (Some (known, target_az)), wp)
                  ∧ provision args known target_az wp = (Ok r, w2)
                  ∧ trace w2 = trace w1 ++ launch
                  ∧ steps launch = script_order req r eni
                  ∧ routes_subnet id r (log (Ev (Sleep 30) true) w2) = (Ok subnet_id, wa)
                  ∧ get_route_tables subnet_id wa = (Ok ids, wb)
                  ∧ trace wb = trace w2 ++ [Ev (Sleep 30) true] ++ pre
                  ∧ Forall (λ e, is_describe (ev_call e)) pre
                  ∧ trace w' = trace wb ++ routes
                                 ++ [Ev (TerminateInstances id) ok; Ev (Sleep 5) true]
                  ∧ ev_call <$> routes = route_calls ids r (route_destination args))).
Proof.
  destruct (get_instance_info id w) as [res w1] eqn:Hrun.
  assert (∃ info, res = Ok info ∧ cloud_of w1 = cloud_of w) as (info & -> & Hw1).
  { destruct (get_instance_info_total id w) as (info & ok & Ht).
    rewrite Ht in Hrun. exists info. by simplify_eq. }
  exists info, w1. split; [done|]. split_and!.
  - intros e w' Hbody. unfold get_instance_info in Hrun.
    rewrite try_except_run, Hbody in Hrun. unfold mret, M_ret in Hrun. by simplify_eq.
  - intros Hf. unfold get_instance_info, get_instance_info_body, EC2.describe_instances,
      api in Hrun.
    rewrite try_except_run, bind_run in Hrun.
    destruct (faults w) as [|[] fs]; simplify_eq/=.
    unfold mret, M_ret in Hrun. by simplify_eq.
  - intros ->.
    assert (cycle args id w = replace_instance args id None w1) as Hcycle.
    { unfold cycle. rewrite bind_run, Hrun. done. }
    split_and!; [done..|].
    intros r w'. rewrite Hcycle. unfold replace_instance. intros H.
    apply bind_ok_inv in H as (plan & wp & Hplan & H).
    destruct plan as [[known target_az]|].
    + right.
      assert (∃ evs0, trace wp = trace w1 ++ evs0
                ∧ Forall (λ e, ¬ is_step (ev_call e)) evs0) as (evs0 & Ht0 & He0).
      { eapply (emits_run (λ c, ¬ is_step c)); [|exact Hplan].
        unfold plan_replacement, get_other_azs, EC2.describe_availability_zones,
          EC2.describe_subnets_filter.
        emits_auto. }
      apply bind_ok_inv in H as (new & w2 & Hprov & H).
      pose proof Hprov as Hprov'.
      apply provision_trace in Hprov' as (evs1 & req & eni & Ht1 & Hsteps).
      apply bind_ok_inv in H as (new' & w3 & Hswitch & H).
      apply switch_over_trace in Hswitch
        as (-> & subnet_id & wa & ids & wb & pre & routes & ok
            & Hsub & Hids & Htb & Hpre & Ht2 & Hcalls).
      unfold sleep, log in H. rewrite bind_run in H. simp_run.
      exists known, target_az, wp, w2, (evs0 ++ evs1), req, eni, subnet_id, wa, ids, wb,
        pre, routes, ok.
      split_and!; [done..| | |done|done|done|done| |done].
      * rewrite Ht1, Ht0. by rewrite <- !app_assoc.
      * unfold steps in *. by rewrite select_app, Hsteps, select_none.
      * rewrite Ht2. by rewrite <- !app_assoc.
    + left. simp_run.
      apply plan_replacement_none_inv in Hplan as (Hcl & evs & Ht & Hevs).
      split; [done|]. split; [congruence|]. by exists evs.
Qed.

(** On the demo account the instance is healthy; when its lookup fails for a
    transient reason the cycle creates ["i-7"], attempts the delete and the
    create on both route tables, asks for the termination of ["i-web"] and
    returns ["i-7"]. *)
Lemma lookup_failure_is_not_found_witness :
  let w := World Demo.account Demo.disk [true] [] [] [] in
  (cycle Demo.args "i-web" w).1 = Ok "i-7"
  ∧ ∃ req eni launch routes ok,
      steps launch = script_order req "i-7" eni
      ∧ ev_call <$> routes
        = route_calls ["rtb-main"; "rtb-priv"] "i-7" "10.0.0.10/32"
      ∧ ∃ before, trace (exec (cycle Demo.args "i-web") w)
           = before ++ routes ++ [Ev (TerminateInstances "i-web") ok; Ev (Sleep 5) true].
Proof.
  intros w. split; [vm_compute; reflexivity|].
  destruct (lookup_failure_is_not_found Demo.args "i-web" w)
    as (info & w1 & Hlookup & _ & Hfault & Hnone).
  destruct (Hnone (Hfault eq_refl)) as (_ & _ & _ & Hcycle).
  destruct (Hcycle "i-7" (exec (cycle Demo.args "i-web") w))
    as [(Hid & _)|(known & target_az & wp & w2 & launch & req & eni & subnet_id & wa & ids
                   & wb & pre & routes & ok
                   & Hplan & Hprov & _ & Hsteps & Hsub & Hids & _ & _ & Ht & Hcalls)].
  - vm_compute. reflexivity.
  - discriminate Hid.
  - exists req, eni, launch, routes, ok. split; [exact Hsteps|].
    assert (ids = ["rtb-main"; "rtb-priv"]) as <-; [|split; [exact Hcalls|by exists (trace wb)]].
    assert (w1 = exec (get_instance_info "i-web") w) as -> by (unfold exec; by rewrite Hlookup).
    vm_compute in Hplan. injection Hplan as <- <- <-.
    vm_compute in Hprov. injection Hprov as <-.
    vm_compute in Hsub. injection Hsub as <- <-.
    vm_compute in Hids. injection Hids as <- _. reflexivity.
Defined.

(** * Further properties of the script *)

(** ** What a computation may do to the world *)

Section Respects.
Context (R : relation world) `{!Reflexive R} `{!Transitive R}.

Lemma respects_ret {A} (a : A) : respects R (mret a).
Proof. intros w. simpl. reflexivity. Qed.

Lemma respects_raise {A} (e : exn) : respects R (raise e : M A).
Proof. intros w. simpl. reflexivity. Qed.

Lemma respects_bind {A B} (m : M A) (f : A → M B) :
  respects R m → (∀ a, respects R (f a)) → respects R (m ≫= f).
Proof.
  intros Hm Hf w. rewrite bind_run. specialize (Hm w).
  destruct (m w) as [[a|e] w1]; simpl in *; [|done].
  etrans; [exact Hm|apply Hf].
Qed.

Lemma respects_try {A} (m : M A) (h : exn → M A) :
  respects R m → (∀ e, respects R (h e)) → respects R (try_except m h).
Proof.
  intros Hm Hh w. rewrite try_except_run. specialize (Hm w).
  destruct (m w) as [[a|e] w1]; simpl in *; [done|].
  etrans; [exact Hm|apply Hh].
Qed.

Lemma respects_index0 {A} (l : list A) : respects R (index0 l).
Proof. destruct l; [apply respects_raise|apply respects_ret]. Qed.

Lemma respects_getitem {A} key (o : option A) : respects R (getitem key o).
Proof. destruct o; [apply respects_ret|apply respects_raise]. Qed.
End Respects.

Global Instance untouched_refl : Reflexive untouched.
Proof. by intros w. Qed.

Global Instance untouched_trans : Transitive untouched.
Proof. intros w1 w2 w3 [? ?] [? ?]. split; congruence. Qed.

(** An API call whose [body] does not change the account. *)
Lemma untouched_api {A} (c : call) (err : exn) (body : cloud → result A * cloud) :
  (∀ cl, (body cl).2 = cl) → respects untouched (api c err body).
Proof.
  intros Hb w. destruct (api_spec c err body w) as (r & cl & -> & Hcl).
  split; [|done]. simpl. destruct Hcl as [(_ & -> & _)|[Hbody _]]; [done|].
  specialize (Hb (cloud_of w)). by rewrite Hbody in Hb.
Qed.

Lemma untouched_sleep (n : Z) : respects untouched (sleep n).
Proof. by intros w. Qed.

Lemma untouched_get_instance_info (id : string) : respects untouched (get_instance_info id).
Proof.
  intros w. destruct (get_instance_info_total id w) as (info & ok & ->). by split.
Qed.

Lemma untouched_get_subnet_in_az (target_az subnet_id : string) :
  respects untouched (get_subnet_in_az target_az subnet_id).
Proof.
  unfold get_subnet_in_az, EC2.describe_subnets_by_id, EC2.describe_subnets_filter.
  apply respects_bind; [apply _..| |intros l].
  { apply untouched_api. intros cl. by destruct (filter _ _). }
  apply respects_bind; [apply _..|apply respects_index0; apply _|intros s].
  apply respects_bind; [apply _..| |intros l'].
  { by apply untouched_api. }
  destruct l'; apply respects_ret; apply _.
Qed.

Lemma untouched_get_subnet_gateway (subnet_id : string) :
  respects untouched (get_subnet_gateway subnet_id).
Proof.
  unfold get_subnet_gateway, EC2.describe_subnets_by_id, IPv4Network, IPv4Address_add.
  apply respects_bind; [apply _..| |intros l].
  { apply untouched_api. intros cl. by destruct (filter _ _). }
  apply respects_bind; [apply _..|apply respects_index0; apply _|intros s].
  apply respects_bind; [apply _..| |intros a].
  { repeat case_decide; (apply respects_ret || apply respects_raise); apply _. }
  case_decide; (apply respects_ret || apply respects_raise); apply _.
Qed.

(** ** A healthy instance *)

(** X1: when the lookup reports the instance running and the probe exits with
    status 0, the cycle replaces nothing: it makes the probe, sleeps 5
    seconds and ends with the same instance id and the same account; the
    loop goes on from there. *)
Theorem healthy_cycle_changes_nothing (args : arguments) (current_instance_id : string)
    (w w1 : world) (i : instance_info) (n : nat) :
  get_instance_info current_instance_id w = (Ok (Some i), w1) →
  info_state i = "running" →
  next_ping w = Exited 0 →
  ∃ w',
    cycle args current_instance_id w = (Ok current_instance_id, w')
    ∧ cloud_of w' = cloud_of w
    ∧ trace w' = trace w1 ++ [Ev (ping_call args) true; Ev (Sleep 5) true]
    ∧ monitor (S n) args current_instance_id w = monitor n args current_instance_id w'.
Proof.
  intros Hinfo Hstate Hping.
  assert (cloud_of w1 = cloud_of w ∧ next_ping w1 = next_ping w) as [Hcl Hp].
  { destruct (get_instance_info_total current_instance_id w) as (i' & ok & Ht).
    rewrite Ht in Hinfo. by simplify_eq. }
  assert (∃ w',
    cycle args current_instance_id w = (Ok current_instance_id, w')
    ∧ cloud_of w' = cloud_of w
    ∧ trace w' = trace w1 ++ [Ev (ping_call args) true; Ev (Sleep 5) true])
    as (w' & Hrun & Hcl' & Ht).
  { unfold cycle, check_replacement. rewrite bind_run, Hinfo.
    rewrite decide_False by (intros Hne; by apply Hne).
    rewrite !bind_run, ping_instance_run, Hp, Hping.
    rewrite bool_decide_eq_true_2 by done. simpl.
    eexists. split; [done|]. simpl. split; [done|]. by rewrite <- app_assoc. }
  exists w'. split_and!; [done..|]. simpl. by rewrite bind_run, Hrun.
Qed.

Lemma healthy_cycle_changes_nothing_witness :
  let w := Demo.quiet Demo.account in
  ∃ w', cycle Demo.args "i-web" w = (Ok "i-web", w') ∧ cloud_of w' = Demo.account.
Proof.
  intros w.
  destruct (healthy_cycle_changes_nothing Demo.args "i-web" w
              (exec (get_instance_info "i-web") w)
              (InstanceInfo (Some "10.0.1.5") "eu-west-1a" "running" "ami-1" "t3.small"
                 "subnet-a") 0)
    as (w' & Hrun & Hcl & _).
  - vm_compute. reflexivity.
  - reflexivity.
  - reflexivity.
  - exists w'. split; [exact Hrun|exact Hcl].
Defined.

(** ** Keys missing from the description *)

(** X2: in a calm world, an instance whose description has no [SubnetId] yields
    no info at all, although it exists and its state is known, so the
    cycle reports it "not found"; one that lacks only [PrivateIpAddress]
    yields its info, with no address. *)
Theorem missing_subnet_id_hides_instance (args : arguments) (id : string) (w : world)
    (i : instance) :
  calm w →
  instances (cloud_of w) !! id = Some i →
  (SubnetId i = None →
     ∃ w1, get_instance_info id w = (Ok None, w1)
           ∧ check_replacement args None w1 = (Ok (true, "not found", false), w1))
  ∧ (∀ s, SubnetId i = Some s → PrivateIpAddress i = None →
       (get_instance_info id w).1
       = Ok (Some (InstanceInfo None (AvailabilityZone i) (StateName i) (ImageId i)
                     (InstanceType i) s))).
Proof.
  intros Hcalm Hi. rewrite get_instance_info_calm by done. unfold info_of.
  rewrite Hi. simpl. split.
  - intros ->. simpl. eauto.
  - intros s -> ->. done.
Qed.

Lemma missing_subnet_id_hides_instance_witness :
  let gone := Instance None "eu-west-1a" "terminated" "ami-1" "t3.small" None [] in
  let w := Demo.quiet (EC2.with_instances (<["i-web" := gone]>) Demo.account) in
  ∃ w1, get_instance_info "i-web" w = (Ok None, w1).
Proof.
  intros gone w.
  destruct (missing_subnet_id_hides_instance Demo.args "i-web" w gone) as [Hnone _].
  - reflexivity.
  - vm_compute. reflexivity.
  - destruct Hnone as (w1 & Hrun & _); [reflexivity|]. by exists w1.
Defined.

(** ** Routes when neither instance can be described *)

(** X3: when the lookup of the old instance and then that of the new one both
    return [None], [update_routes] raises [TypeError] after these two calls:
    no route table was enumerated or changed. *)
Theorem update_routes_without_instances (old new cidr : string) (w w1 w2 : world) :
  get_instance_info old w = (Ok None, w1) →
  get_instance_info new w1 = (Ok None, w2) →
  update_routes old new cidr w = (Raise TypeError, w2)
  ∧ cloud_of w2 = cloud_of w
  ∧ ∃ ok1 ok2,
      trace w2 = trace w ++ [Ev (DescribeInstances old) ok1; Ev (DescribeInstances new) ok2].
Proof.
  intros Hold Hnew. split_and!.
  - unfold update_routes, routes_subnet. by rewrite !bind_run, Hold, bind_run, Hnew.
  - pose proof (untouched_get_instance_info old w) as [H1 _].
    pose proof (untouched_get_instance_info new w1) as [H2 _].
    rewrite Hold in H1. rewrite Hnew in H2. simpl in *. congruence.
  - destruct (get_instance_info_total old w) as (i1 & ok1 & Ht1).
    destruct (get_instance_info_total new w1) as (i2 & ok2 & Ht2).
    rewrite Ht1 in Hold. rewrite Ht2 in Hnew. simplify_eq. simpl.
    exists ok1, ok2. by rewrite <- app_assoc.
Qed.

Lemma update_routes_without_instances_witness :
  let w := World Demo.account Demo.disk [true; true] [] [] [] in
  (update_routes "i-web" "i-web" "10.0.0.10/32" w).1 = Raise TypeError.
Proof.
  intros w.
  destruct (update_routes_without_instances "i-web" "i-web" "10.0.0.10/32" w
              (exec (get_instance_info "i-web") w)
              (exec (get_instance_info "i-web") (exec (get_instance_info "i-web") w)))
    as (Hrun & _).
  - vm_compute. reflexivity.
  - vm_compute. reflexivity.
  - by rewrite Hrun.
Defined.

(** ** Switching over *)

(** X4: once [update_routes] has returned, [switch_over] asks EC2 to terminate
    the old instance, ignores the outcome of that call and returns the new
    instance id; the grace sleep of 30 seconds comes first. *)
Theorem switch_over_ignores_termination (args : arguments) (current new : string)
    (w w2 : world) :
  update_routes current new (route_destination args) (exec (sleep 30) w) = (Ok (), w2) →
  ∃ cl ok,
    switch_over args current new w
    = (Ok new, World cl (files w2) (tail (faults w2)) (pings w2) (rng w2)
                 (trace w2 ++ [Ev (TerminateInstances current) ok]))
    ∧ trace (exec (sleep 30) w) = trace w ++ [Ev (Sleep 30) true].
Proof.
  intros Hroutes. unfold switch_over.
  match goal with |- context [try_except (?t current) ?h] =>
    destruct (try_api_run (TerminateInstances current) transient
      (λ cl, match instances cl !! current with
             | Some i => (Ok (), EC2.with_instances
                                   (<[current := EC2.set_state "shutting-down" i]>) cl)
             | None => (Raise (ClientError "InvalidInstanceID.NotFound"), cl)
             end) w2) as (cl & ok & Hterm) end.
  exists cl, ok. split; [|done].
  rewrite bind_run. unfold exec in Hroutes. simpl in Hroutes. simpl.
  rewrite bind_run, Hroutes, bind_run.
  unfold EC2.terminate_instances. by rewrite Hterm.
Qed.

Lemma switch_over_ignores_termination_witness :
  let w := Demo.quiet Demo.account in
  (switch_over Demo.args "i-gone" "i-web" w).1 = Ok "i-web".
Proof.
  intros w.
  destruct (switch_over_ignores_termination Demo.args "i-gone" "i-web" w
              (exec (update_routes "i-gone" "i-web" "10.0.0.10/32") (exec (sleep 30) w)))
    as (cl & ok & Hrun & _).
  - vm_compute. reflexivity.
  - by rewrite Hrun.
Defined.

(** ** Launching *)

Lemma is_describe_not_launch c : is_describe c → ¬ is_launch c.
Proof. destruct c; simpl; tauto. Qed.

Lemma launches_quiet {A} (m : M A) (w w' : world) (r : result A) :
  emits (λ c, ¬ is_launch c) m → m w = (r, w') →
  select is_launch (trace w') = select is_launch (trace w).
Proof.
  intros Hm Hrun. pose proof (emits_select is_launch m w Hm) as H.
  by rewrite Hrun in H.
Qed.

Lemma respects_run {A} (R : relation world) (m : M A) (w w' : world) (r : result A) :
  respects R m → m w = (r, w') → R w w'.
Proof. intros Hm Hrun. specialize (Hm w). by rewrite Hrun in Hm. Qed.

(** X5: when the template file cannot be opened, [launch_instance_in_az] raises
    before it has asked EC2 for an instance: the account is unchanged and no
    [run_instances] call was made. *)
Theorem launch_without_template_creates_nothing (info : launch_info)
    (target_az sg kp template cidr : string) (w : world) :
  files w !! template = None →
  ∃ e w',
    launch_instance_in_az info target_az sg kp template cidr w = (Raise e, w')
    ∧ cloud_of w' = cloud_of w
    ∧ select is_launch (trace w') = select is_launch (trace w).
Proof.
  intros Hfile. unfold launch_instance_in_az. rewrite bind_run.
  destruct (get_subnet_in_az target_az (li_subnet_id info) w) as [r1 w1] eqn:H1.
  pose proof (respects_run _ _ _ _ _ (untouched_get_subnet_in_az _ _) H1) as [Hc1 Hf1].
  pose proof (launches_quiet _ _ _ _
    (emits_weaken _ _ _ is_describe_not_launch (get_subnet_in_az_describes _ _)) H1) as Hl1.
  destruct r1 as [[[|c ts]|]|e]; try (by eexists _, _).
  rewrite bind_run.
  destruct (get_subnet_gateway (String c ts) w1) as [r2 w2] eqn:H2.
  pose proof (respects_run _ _ _ _ _ (untouched_get_subnet_gateway _) H2) as [Hc2 Hf2].
  pose proof (launches_quiet _ _ _ _
    (emits_weaken _ _ _ is_describe_not_launch (get_subnet_gateway_describes _)) H2) as Hl2.
  destruct r2 as [gw|e].
  - unfold render_user_data, read_file. rewrite !bind_run.
    rewrite Hf2, Hf1, Hfile. eexists _, _. split; [done|]. simpl.
    split; [congruence|]. rewrite select_app, Hl2, Hl1. simpl. by rewrite app_nil_r.
  - eexists _, _. split; [done|]. split; congruence.
Qed.

Lemma launch_without_template_creates_nothing_witness :
  let info := LaunchInfo "eu-west-1a" "subnet-a" "ami-1" "t3.small" in
  let w := World Demo.account ∅ [] [] [] [] in
  ∃ e w', launch_instance_in_az info "eu-west-1b" "sg-1" "key-1" "user_data.j2"
            "10.0.0.10/32" w = (Raise e, w')
          ∧ cloud_of w' = Demo.account.
Proof.
  intros info w.
  destruct (launch_without_template_creates_nothing info "eu-west-1b" "sg-1" "key-1"
              "user_data.j2" "10.0.0.10/32" w) as (e & w' & Hrun & Hcl & _).
  - reflexivity.
  - by exists e, w'.
Defined.

Lemma get_subnet_in_az_ok_inv (target_az subnet_id : string) (w w1 : world) (ts : string) :
  get_subnet_in_az target_az subnet_id w = (Ok (Some ts), w1) →
  ∃ src dst,
    head (filter (λ s, sn_id s = subnet_id) (subnets (cloud_of w))) = Some src
    ∧ head (filter (EC2.matches_filter (Some (sn_vpc src)) target_az) (subnets (cloud_of w)))
      = Some dst
    ∧ ts = sn_id dst.
Proof.
  unfold get_subnet_in_az, EC2.describe_subnets_by_id, EC2.describe_subnets_filter.
  intros H.
  apply bind_ok_inv in H as (l & wa & Ha & H).
  apply api_ok_inv in Ha as (cl & Hb & ->).
  destruct (filter (λ s, sn_id s = subnet_id) (subnets (cloud_of w))) as [|src l0] eqn:Hsrc;
    simplify_eq.
  apply bind_ok_inv in H as (s & wb & Hs & H). simp_run.
  apply bind_ok_inv in H as (l' & wc & Hc & H).
  apply api_ok_inv in Hc as (cl & Hb & ->). simp_run.
  destruct (filter (EC2.matches_filter (Some (sn_vpc s)) target_az) (subnets (cloud_of w)))
    as [|dst l1] eqn:Hdst; simp_run.
  exists s, dst. by rewrite Hdst.
Qed.

(** Everything a successful [launch_instance_in_az] has established. *)
Lemma launch_instance_in_az_inv (info : launch_info) (target_az sg kp template cidr : string)
    (w w' : world) (id : string) :
  launch_instance_in_az info target_az sg kp template cidr w = (Ok id, w') →
  ∃ src dst placed tpl gw n i eni,
    head (filter (λ s, sn_id s = li_subnet_id info) (subnets (cloud_of w))) = Some src
    ∧ head (filter (EC2.matches_filter (Some (sn_vpc src)) target_az) (subnets (cloud_of w)))
      = Some dst
    ∧ head (filter (λ s, sn_id s = sn_id dst) (subnets (cloud_of w))) = Some placed
    ∧ files w !! template = Some tpl
    ∧ 10000 ≤ n ≤ 99999
    ∧ Ev (RunInstances (RunRequest (li_ami_id info) (li_instance_type info) kp sg (sn_id dst)
                          (UserData tpl gw cidr) ("sec-ip-vip-" +:+ pretty n))) true
        ∈ trace w'
    ∧ instances (cloud_of w') !! id = Some i
    ∧ i = Instance None (sn_az placed) "running" (li_ami_id info) (li_instance_type info)
            (Some (sn_id placed)) [eni]
    ∧ enis (cloud_of w') !! eni = Some false.
Proof.
  unfold launch_instance_in_az. intros H.
  apply bind_ok_inv in H as (ts & w1 & Hts & H).
  pose proof (respects_run _ _ _ _ _ (untouched_get_subnet_in_az _ _) Hts) as [Hc1 Hf1].
  destruct ts as [[|c ts]|]; [by simp_run| |by simp_run].
  apply get_subnet_in_az_ok_inv in Hts as (src & dst & Hsrc & Hdst & Hid).
  apply bind_ok_inv in H as (gw & w2 & Hgw & H).
  pose proof (respects_run _ _ _ _ _ (untouched_get_subnet_gateway _) Hgw) as [Hc2 Hf2].
  apply bind_ok_inv in H as (ud & w3 & Hud & H).
  unfold render_user_data, read_file in Hud.
  apply bind_ok_inv in Hud as (tpl & w3' & Htpl & Hud).
  destruct (files w2 !! template) as [tpl'|] eqn:Hfile; simp_run.
  apply bind_ok_inv in H as (n & w4 & Hn & H).
  unfold randint in Hn. simplify_eq/=.
  apply bind_ok_inv in H as (new & w5 & Hnew & H).
  apply api_ok_inv in Hnew as (cl5 & Hrun & ->). simpl in Hrun.
  rewrite Hc2, Hc1, Hid in Hrun.
  destruct (filter (λ s, sn_id s = sn_id dst) (subnets (cloud_of w))) as [|placed l2] eqn:Hpl;
    simplify_eq/=.
  apply bind_ok_inv in H as ([] & w6 & Hwait & H).
  apply api_ok_inv in Hwait as (cl6 & Hwb & ->). simpl in Hwb.
  rewrite lookup_insert_eq in Hwb. simplify_eq/=.
  apply bind_ok_inv in H as (described & w7 & Hdesc & H).
  apply api_ok_inv in Hdesc as (cl7 & Hdb & ->). simpl in Hdb.
  rewrite lookup_insert_eq in Hdb. simplify_eq/=.
  apply bind_ok_inv in H as (eni & w8 & Heni & H). simp_run.
  apply bind_ok_inv in H as ([] & w9 & Hmod & H).
  apply api_ok_inv in Hmod as (cl9 & Hmb & ->). simpl in Hmb.
  rewrite lookup_insert_eq in Hmb. simp_run.
  exists src, dst, placed, tpl, gw, (10000 + hd 0 (rng w2) `mod` (99999 - 10000 + 1)),
    (Instance None (sn_az placed) "running" (li_ami_id info) (li_instance_type info)
       (Some (sn_id placed)) [EC2.fresh_eni_id (cloud_of w)]),
    (EC2.fresh_eni_id (cloud_of w)).
  split; [done|]. split; [done|]. split; [by rewrite Hpl|]. split; [congruence|].
  split.
  { pose proof (Z.mod_pos_bound (hd 0 (rng w2)) (99999 - 10000 + 1)). lia. }
  split.
  { rewrite Hid. rewrite !elem_of_app. left. left. left. right. by left. }
  split; [by rewrite lookup_insert_eq|]. split; [done|]. by rewrite lookup_insert_eq.
Qed.

Lemma NoDup_sn_id (l : list subnet) (s s' : subnet) :
  NoDup (sn_id <$> l) → s ∈ l → s' ∈ l → sn_id s = sn_id s' → s = s'.
Proof.
  induction l as [|x l IH]; [by intros _ ?%elem_of_nil|].
  rewrite fmap_cons, NoDup_cons. intros [Hx Hl] Hs Hs' Hid.
  apply elem_of_cons in Hs as [->|Hs]; apply elem_of_cons in Hs' as [->|Hs']; [done| | |by auto].
  - destruct Hx. rewrite Hid. by apply list_elem_of_fmap_2.
  - destruct Hx. rewrite <- Hid. by apply list_elem_of_fmap_2.
Qed.

Lemma head_filter_elem {A} (P : A → Prop) `{!∀ x, Decision (P x)} (l : list A) (x : A) :
  head (filter P l) = Some x → x ∈ l ∧ P x.
Proof.
  intros Hx. apply head_Some_elem_of in Hx. apply list_elem_of_filter in Hx. tauto.
Qed.

(** X6: with subnet ids unique, a successful launch leaves a running instance
    in the target zone, in a subnet of the VPC of the subnet it started
    from, with the image and the type it was given, and with the
    source/destination check of its network interface off. *)
Theorem launch_lands_in_target_zone (info : launch_info)
    (target_az sg kp template cidr : string) (w w' : world) (id : string) :
  NoDup (sn_id <$> subnets (cloud_of w)) →
  launch_instance_in_az info target_az sg kp template cidr w = (Ok id, w') →
  ∃ src dst i eni,
    src ∈ subnets (cloud_of w) ∧ sn_id src = li_subnet_id info
    ∧ dst ∈ subnets (cloud_of w) ∧ sn_vpc dst = sn_vpc src ∧ sn_az dst = target_az
    ∧ instances (cloud_of w') !! id = Some i
    ∧ AvailabilityZone i = target_az
    ∧ SubnetId i = Some (sn_id dst)
    ∧ StateName i = "running"
    ∧ ImageId i = li_ami_id info ∧ InstanceType i = li_instance_type info
    ∧ NetworkInterfaces i = [eni]
    ∧ enis (cloud_of w') !! eni = Some false.
Proof.
  intros Hnodup Hrun.
  apply launch_instance_in_az_inv in Hrun
    as (src & dst & placed & tpl & gw & n & i & eni
        & Hsrc & Hdst & Hpl & _ & _ & _ & Hi & -> & Heni).
  apply head_filter_elem in Hsrc as [Hsrc Hsid].
  apply head_filter_elem in Hdst as [Hdst [Hvpc Haz]].
  apply head_filter_elem in Hpl as [Hpl Hpid].
  assert (placed = dst) as -> by eauto using NoDup_sn_id.
  eexists src, dst, _, eni. split_and!; done.
Qed.

Lemma launch_lands_in_target_zone_witness :
  let info := LaunchInfo "eu-west-1a" "subnet-a" "ami-1" "t3.small" in
  let w := Demo.quiet Demo.account in
  ∃ i, instances (cloud_of (exec (launch_instance_in_az info "eu-west-1b" "sg-1" "key-1"
                                    "user_data.j2" "10.0.0.10/32") w)) !! "i-7" = Some i
       ∧ AvailabilityZone i = "eu-west-1b".
Proof.
  intros info w.
  destruct (launch_lands_in_target_zone info "eu-west-1b" "sg-1" "key-1" "user_data.j2"
              "10.0.0.10/32" w
              (exec (launch_instance_in_az info "eu-west-1b" "sg-1" "key-1" "user_data.j2"
                       "10.0.0.10/32") w) "i-7")
    as (src & dst & i & eni & _ & _ & _ & _ & _ & Hi & Haz & _).
  - vm_compute. repeat constructor; intros H; inversion H as [|? ? ? H']; inversion H'.
  - vm_compute. reflexivity.
  - exists i. split; [exact Hi|exact Haz].
Defined.

(** X7: the request of a successful launch: the image and type of the instance
    description, the key pair and security group of the command line, a
    subnet of the target zone, the template read from the file with the
    destination CIDR, and a name [sec-ip-vip-N] with N between 10000 and
    99999. *)
Theorem launch_request (info : launch_info) (target_az sg kp template cidr : string)
    (w w' : world) (id : string) :
  launch_instance_in_az info target_az sg kp template cidr w = (Ok id, w') →
  ∃ dst tpl gw n,
    dst ∈ subnets (cloud_of w) ∧ sn_az dst = target_az
    ∧ files w !! template = Some tpl
    ∧ 10000 ≤ n ≤ 99999
    ∧ Ev (RunInstances (RunRequest (li_ami_id info) (li_instance_type info) kp sg (sn_id dst)
                          (UserData tpl gw cidr) ("sec-ip-vip-" +:+ pretty n))) true
        ∈ trace w'
    ∧ length (select is_launch (trace w')) = S (length (select is_launch (trace w))).
Proof.
  intros Hrun.
  pose proof (launch_instance_in_az_steps _ _ _ _ _ _ _ _ _ Hrun) as (req & eni' & Hsteps).
  apply launch_instance_in_az_inv in Hrun
    as (src & dst & placed & tpl & gw & n & i & eni
        & _ & Hdst & _ & Htpl & Hn & Hev & _).
  apply head_filter_elem in Hdst as [Hdst [_ Haz]].
  exists dst, tpl, gw, n. do 5 (split; [done|]).
  assert (∀ t, select is_launch t = filter is_launch (steps t)) as Hsel.
  { intros t. unfold steps, select. induction (ev_call <$> t) as [|c l IH]; [done|].
    rewrite !filter_cons. destruct c; simpl; rewrite ?filter_cons; simpl; by rewrite IH. }
  rewrite !Hsel, Hsteps, filter_app, length_app. simpl. lia.
Qed.

Lemma launch_request_witness :
  let info := LaunchInfo "eu-west-1a" "subnet-a" "ami-1" "t3.small" in
  let w := Demo.quiet Demo.account in
  length (select is_launch (trace (exec (launch_instance_in_az info "eu-west-1b" "sg-1"
            "key-1" "user_data.j2" "10.0.0.10/32") w))) = 1%nat.
Proof.
  intros info w.
  destruct (launch_request info "eu-west-1b" "sg-1" "key-1" "user_data.j2" "10.0.0.10/32" w
              (exec (launch_instance_in_az info "eu-west-1b" "sg-1" "key-1" "user_data.j2"
                       "10.0.0.10/32") w) "i-7")
    as (dst & tpl & gw & n & _ & _ & _ & _ & _ & Hlen).
  - vm_compute. reflexivity.
  - exact Hlen.
Defined.

(** ** The probed address *)

(** X8: [split('/')[0]] is the longest prefix without a slash: it contains no
    slash, and what follows it in the string is nothing or starts with a
    slash. *)
Theorem before_slash_longest_prefix (s : string) :
  has_slash (before_slash s) = false
  ∧ ∃ rest, s = before_slash s +:+ rest
            ∧ (rest = "" ∨ ∃ r, rest = String "/"%char r).
Proof.
  induction s as [|c s [IH (rest & Hs & Hrest)]]; simpl.
  - split; [done|]. exists "". auto.
  - destruct (Ascii.eqb c "/"%char) eqn:Hc; simpl.
    + apply Ascii.eqb_eq in Hc as ->. split; [done|]. exists (String "/"%char s). eauto.
    + rewrite Hc. split; [done|]. exists rest. split; [|done].
      change (String c s = String c (before_slash s +:+ rest)). by f_equal.
Qed.

(** ** The gateway of a subnet *)

(** X9: in a calm world, for a subnet EC2 knows, with a prefix length in 0..32
    and a 32-bit address: when the block is aligned and not the last
    address, [get_subnet_gateway] returns the block's address plus one,
    which lies inside the block exactly when the prefix is shorter than 32;
    when the block is not aligned it raises [ValueError].  The account is
    unchanged either way. *)
Theorem get_subnet_gateway_first_address (subnet_id : string) (w : world) (s : subnet) :
  calm w →
  head (filter (λ s, sn_id s = subnet_id) (subnets (cloud_of w))) = Some s →
  0 ≤ cidr_len (sn_cidr s) ≤ 32 →
  0 ≤ cidr_addr (sn_cidr s) < 2 ^ 32 →
  let a := cidr_addr (sn_cidr s) in
  let size := 2 ^ (32 - cidr_len (sn_cidr s)) in
  (Z.land a (size - 1) = 0 → a + 1 < 2 ^ 32 →
     (get_subnet_gateway subnet_id w).1 = Ok (a + 1)
     ∧ (a + 1 < a + size ↔ cidr_len (sn_cidr s) < 32))
  ∧ (Z.land a (size - 1) ≠ 0 → (get_subnet_gateway subnet_id w).1 = Raise ValueError)
  ∧ cloud_of (exec (get_subnet_gateway subnet_id) w) = cloud_of w.
Proof.
  intros Hcalm Hs Hlen Haddr a size.
  assert (∀ r w', get_subnet_gateway subnet_id w = (r, w') →
            r = if decide (Z.land a (size - 1) = 0)
                then if decide (0 ≤ a + 1 < 2 ^ 32) then Ok (a + 1) else Raise ValueError
                else Raise ValueError) as Hrun.
  { intros r w'. unfold get_subnet_gateway, EC2.describe_subnets_by_id, IPv4Network,
      IPv4Address_add. rewrite bind_run, api_calm by done.
    destruct (filter (λ s, sn_id s = subnet_id) (subnets (cloud_of w))) as [|s0 l];
      simplify_eq/=.
    rewrite bind_run, ret_run, bind_run. fold a size.
    rewrite decide_True by done.
    destruct (decide (Z.land a (size - 1) = 0)); simpl.
    - destruct (decide (0 ≤ a + 1 < 2 ^ 32)); simpl; unfold mret, M_ret, raise; congruence.
    - congruence. }
  split_and!.
  - intros Hal Hlast. split.
    + destruct (get_subnet_gateway subnet_id w) as [r w'] eqn:Hg.
      rewrite (Hrun r w' eq_refl), decide_True, decide_True by lia. done.
    + subst size. split.
      * intros Hin. destruct (decide (cidr_len (sn_cidr s) < 32)) as [|Hn]; [done|].
        assert (cidr_len (sn_cidr s) = 32) as Heq by lia. rewrite Heq in Hin.
        simpl in Hin. lia.
      * intros Hlt.
        pose proof (Z.pow_le_mono_r 2 1 (32 - cidr_len (sn_cidr s))). lia.
  - intros Hal. destruct (get_subnet_gateway subnet_id w) as [r w'] eqn:Hg.
    by rewrite (Hrun r w' eq_refl), decide_False.
  - apply (untouched_get_subnet_gateway subnet_id w).
Qed.

Lemma get_subnet_gateway_first_address_witness :
  (get_subnet_gateway "subnet-b" (Demo.quiet Demo.account)).1 = Ok (167772672 + 1).
Proof.
  destruct (get_subnet_gateway_first_address "subnet-b" (Demo.quiet Demo.account)
              Demo.subnet_b) as (Hok & _).
  - reflexivity.
  - vm_compute. reflexivity.
  - simpl. lia.
  - simpl. lia.
  - apply Hok; [reflexivity|simpl; lia].
Defined.

(** ** What reconciliation leaves alone *)

Lemma same_but_route_refl (cidr : string) (cl : cloud) : same_but_route cidr cl cl.
Proof.
  unfold same_but_route. split_and!; try done.
  intros id. by destruct (route_tables cl !! id).
Qed.

Lemma same_but_route_trans (cidr : string) (cl1 cl2 cl3 : cloud) :
  same_but_route cidr cl1 cl2 → same_but_route cidr cl2 cl3 → same_but_route cidr cl1 cl3.
Proof.
  intros (? & ? & ? & ? & ? & H12) (? & ? & ? & ? & ? & H23).
  unfold same_but_route. split_and!; try congruence.
  intros id. specialize (H12 id). specialize (H23 id).
  destruct (route_tables cl1 !! id), (route_tables cl2 !! id), (route_tables cl3 !! id);
    try done.
  destruct H12 as [? H12], H23 as [? H23]. split; [congruence|].
  intros d Hd. by rewrite H23, H12.
Qed.

Global Instance route_only_refl cidr : Reflexive (route_only cidr).
Proof. intros w. apply same_but_route_refl. Qed.

Global Instance route_only_trans cidr : Transitive (route_only cidr).
Proof. intros w1 w2 w3. apply same_but_route_trans. Qed.

Lemma respects_weaken {A} (R R' : relation world) (m : M A) :
  (∀ w w', R w w' → R' w w') → respects R m → respects R' m.
Proof. intros HR Hm w. apply HR, Hm. Qed.

Lemma untouched_route_only (cidr : string) (w w' : world) : untouched w w' → route_only cidr w w'.
Proof.
  intros [Hcl _]. unfold route_only. rewrite Hcl. apply same_but_route_refl.
Qed.

Lemma route_only_api {A} (cidr : string) (c : call) (err : exn)
    (body : cloud → result A * cloud) :
  (∀ cl, same_but_route cidr cl (body cl).2) → respects (route_only cidr) (api c err body).
Proof.
  intros Hb w. destruct (api_spec c err body w) as (r & cl & -> & Hcl).
  unfold route_only. simpl. destruct Hcl as [(_ & -> & _)|[Hbody _]].
  - apply same_but_route_refl.
  - specialize (Hb (cloud_of w)). by rewrite Hbody in Hb.
Qed.

Lemma same_but_route_insert (cidr id : string) (cl : cloud) (t : route_table)
    (r : gmap string string) :
  route_tables cl !! id = Some t →
  (∀ d, d ≠ cidr → r !! d = rt_routes t !! d) →
  same_but_route cidr cl (EC2.with_route_tables (<[id := EC2.set_routes r t]>) cl).
Proof.
  intros Ht Hr. unfold same_but_route. split_and!; try done.
  intros id'. cbn [route_tables EC2.with_route_tables]. rewrite lookup_insert.
  destruct (decide (id = id')) as [<-|Hne].
  - rewrite Ht. done.
  - by destruct (route_tables cl !! id').
Qed.

Lemma delete_route_body_route_only (id cidr : string) (cl : cloud) :
  same_but_route cidr cl (EC2.delete_route_body id cidr cl).2.
Proof.
  unfold EC2.delete_route_body.
  destruct (route_tables cl !! id) as [t|] eqn:Ht; [|apply same_but_route_refl].
  destruct (rt_routes t !! cidr); [|apply same_but_route_refl].
  apply same_but_route_insert; [done|]. intros d Hd. by rewrite lookup_delete_ne.
Qed.

Lemma create_route_body_route_only (id cidr new : string) (cl : cloud) :
  same_but_route cidr cl (EC2.create_route_body id cidr new cl).2.
Proof.
  unfold EC2.create_route_body.
  destruct (route_tables cl !! id) as [t|] eqn:Ht; [|apply same_but_route_refl].
  destruct (rt_routes t !! cidr); [apply same_but_route_refl|].
  destruct (instances cl !! new); [|apply same_but_route_refl].
  apply same_but_route_insert; [done|]. intros d Hd. by rewrite lookup_insert_ne.
Qed.

Lemma route_loop_route_only (ids : list string) (new cidr : string) :
  respects (route_only cidr) (route_loop ids new cidr).
Proof.
  induction ids as [|id ids IH]; simpl; [apply respects_ret; apply _|].
  apply respects_bind; [apply _..| |intros _].
  { apply respects_try; [apply _..| |intros; apply respects_ret; apply _].
    apply route_only_api, delete_route_body_route_only. }
  apply respects_bind; [apply _..| |intros _; apply IH].
  apply respects_try; [apply _..| |intros; apply respects_ret; apply _].
  apply route_only_api, create_route_body_route_only.
Qed.

Lemma untouched_get_route_tables (subnet_id : string) :
  respects untouched (get_route_tables subnet_id).
Proof.
  unfold get_route_tables, EC2.describe_subnets_by_id, EC2.describe_route_tables.
  apply respects_bind; [apply _..| |intros l].
  { apply untouched_api. intros cl. by destruct (filter _ _). }
  apply respects_bind; [apply _..|apply respects_index0; apply _|intros s].
  apply respects_bind; [apply _..| |intros; apply respects_ret; apply _].
  by apply untouched_api.
Qed.

Lemma untouched_routes_subnet (old new : string) : respects untouched (routes_subnet old new).
Proof.
  unfold routes_subnet.
  apply respects_bind; [apply _..|apply untouched_get_instance_info|intros [i|]].
  - apply respects_ret; apply _.
  - apply respects_bind; [apply _..|apply untouched_get_instance_info|intros [i|]].
    + apply respects_ret; apply _.
    + apply respects_raise; apply _.
Qed.

(** X10: whatever the account and whatever fails, [update_routes] changes nothing
    but routes to [cidr]: instances, subnets, zones and network interfaces
    are as before, no route table appears or disappears or changes VPC, and
    every route to another destination is kept. *)
Theorem update_routes_touches_one_destination (old new cidr : string) (w : world) :
  same_but_route cidr (cloud_of w) (cloud_of (exec (update_routes old new cidr) w)).
Proof.
  assert (respects (route_only cidr) (update_routes old new cidr)) as H; [|apply H].
  unfold update_routes.
  apply respects_bind; [apply _..| |intros s].
  { eapply respects_weaken; [apply untouched_route_only|apply untouched_routes_subnet]. }
  apply respects_bind; [apply _..| |intros ids; apply route_loop_route_only].
  eapply respects_weaken; [apply untouched_route_only|apply untouched_get_route_tables].
Qed.

(** ** No rollback *)

Lemma update_routes_calm_cloud (old new cidr : string) (w : world) :
  calm w → cloud_of (exec (update_routes old new cidr) w) = reconciled (cloud_of w) old new cidr.
Proof.
  intros Hcalm.
  destruct (update_routes_after old new cidr w (cloud_of w) []) as (r & evs & Hrun & _).
  rewrite <- (calm_is_after w Hcalm) in Hrun. unfold exec. by rewrite Hrun.
Qed.

(** X11: in a calm world, when the VPC can be determined but the new instance
    does not exist, [update_routes] deletes the route to [cidr] from every
    table of the VPC and cannot put one back: these tables end without a
    route to [cidr], and the tables of other VPCs are unchanged. *)
Theorem update_routes_to_missing_instance (old new cidr v : string) (w : world) :
  calm w →
  instances (cloud_of w) !! new = None →
  reconciled_vpc (cloud_of w) old new = Some v →
  ∀ id t, route_tables (cloud_of w) !! id = Some t →
    ∃ t', route_tables (cloud_of (exec (update_routes old new cidr) w)) !! id = Some t'
          ∧ (rt_vpc t = v → rt_routes t' !! cidr = None)
          ∧ (rt_vpc t ≠ v → t' = t).
Proof.
  intros Hcalm Hnew Hvpc id t Ht. rewrite update_routes_calm_cloud by done.
  unfold reconciled. rewrite Hvpc. cbn [route_tables EC2.with_route_tables].
  rewrite lookup_fmap, Ht. simpl. eexists. split; [done|].
  unfold reconcile_table. split.
  - intros Hv. rewrite decide_True by done. unfold repoint. rewrite Hnew.
    cbn [rt_routes EC2.set_routes]. apply lookup_delete_eq.
  - intros Hv. by rewrite decide_False.
Qed.

Lemma update_routes_to_missing_instance_witness :
  let w := Demo.quiet Demo.account in
  ∃ t', route_tables (cloud_of (exec (update_routes "i-web" "i-new" "10.0.0.10/32") w))
          !! "rtb-main" = Some t'
        ∧ rt_routes t' !! "10.0.0.10/32" = None.
Proof.
  intros w.
  destruct (update_routes_to_missing_instance "i-web" "i-new" "10.0.0.10/32" "vpc-1" w)
    with (id := "rtb-main") (t := Demo.rt_main) as (t' & Ht' & Hgone & _).
  - reflexivity.
  - vm_compute. reflexivity.
  - vm_compute. reflexivity.
  - vm_compute. reflexivity.
  - exists t'. split; [exact Ht'|]. apply Hgone. reflexivity.
Defined.

(** ** Completing a replacement *)

(** X12: in a calm world where the new instance exists, a [switch_over] that
    returns has pointed every route table of the reconciled VPC at the new
    instance, whether or not the table had a route to the destination
    before, has left the old instance, if EC2 knew it, shutting down, and
    returns the new instance id. *)
Theorem switch_over_converges (args : arguments) (current new r : string) (w w' : world) :
  calm w →
  is_Some (instances (cloud_of w) !! new) →
  switch_over args current new w = (Ok r, w') →
  r = new
  ∧ (∃ v, reconciled_vpc (cloud_of w) current new = Some v
          ∧ ∀ id t, route_tables (cloud_of w) !! id = Some t → rt_vpc t = v →
              ∃ t', route_tables (cloud_of w') !! id = Some t'
                    ∧ rt_routes t' !! route_destination args = Some new)
  ∧ (∀ i, instances (cloud_of w) !! current = Some i →
          instances (cloud_of w') !! current = Some (EC2.set_state "shutting-down" i)).
Proof.
  intros Hcalm [inew Hnew] Hrun. unfold switch_over in Hrun.
  rewrite (calm_is_after w Hcalm) in Hrun.
  rewrite bind_run, sleep_after in Hrun. cbn [app] in Hrun.
  destruct (update_routes_after current new (route_destination args) w (cloud_of w)
              [Ev (Sleep 30) true]) as (r1 & evs & Hroutes & Hr1).
  rewrite bind_run, Hroutes in Hrun.
  destruct (reconciled_vpc (cloud_of w) current new) as [v|] eqn:Hvpc;
    [|by destruct r1; simplify_eq/=].
  destruct Hr1 as [-> _].
  unfold EC2.terminate_instances in Hrun.
  rewrite bind_run, try_api_after, ret_run in Hrun.
  injection Hrun as Hr Hw. subst r w'.
  set (cl := reconciled (cloud_of w) current new (route_destination args)).
  assert (instances cl = instances (cloud_of w)
          ∧ ∀ id t, route_tables (cloud_of w) !! id = Some t → rt_vpc t = v →
              ∃ t', route_tables cl !! id = Some t'
                    ∧ rt_routes t' !! route_destination args = Some new) as [Hins Htabs].
  { subst cl. unfold reconciled. rewrite Hvpc. split; [done|].
    intros id t Ht Hv. cbn [route_tables EC2.with_route_tables].
    rewrite lookup_fmap, Ht. simpl. eexists. split; [done|].
    unfold reconcile_table. rewrite decide_True by done. unfold repoint. rewrite Hnew.
    cbn [rt_routes EC2.set_routes]. apply lookup_insert_eq. }
  split; [done|]. split.
  - exists v. split; [done|]. intros id t Ht Hv.
    destruct (Htabs id t Ht Hv) as (t' & Ht' & Hroute). exists t'. split; [|done].
    cbn [cloud_of after]. rewrite Hins. by destruct (instances (cloud_of w) !! current).
  - intros i Hi. cbn [cloud_of after]. rewrite Hins, Hi.
    cbn [snd instances EC2.with_instances]. by rewrite Hins, lookup_insert_eq.
Qed.

Lemma switch_over_converges_witness :
  let w := Demo.quiet (EC2.with_route_tables (fmap (EC2.set_routes ∅)) Demo.account) in
  ∃ t', route_tables (cloud_of (exec (switch_over Demo.args "i-gone" "i-web") w)) !! "rtb-main"
          = Some t'
        ∧ rt_routes t' !! "10.0.0.10/32" = Some "i-web".
Proof.
  intros w.
  destruct (switch_over_converges Demo.args "i-gone" "i-web" "i-web" w
              (exec (switch_over Demo.args "i-gone" "i-web") w))
    as (_ & (v & Hv & Htabs) & _).
  - reflexivity.
  - vm_compute. eexists. reflexivity.
  - vm_compute. reflexivity.
  - destruct (Htabs "rtb-main" (EC2.set_routes ∅ Demo.rt_main)) as (t' & Ht' & Hr).
    + vm_compute. reflexivity.
    + assert (Some v = Some "vpc-1") as Hv' by (rewrite <- Hv; vm_compute; reflexivity).
      by simplify_eq.
    + exists t'. split; [exact Ht'|exact Hr].
Defined.

(** ** A region with a single zone *)

(** X13: in a calm world, when the instance was described and the region lists
    no zone other than the instance's, [replace_instance] gives up: it asks
    for the zones, sleeps 5 seconds and returns the current instance id,
    having launched nothing and changed nothing in the account. *)
Theorem no_other_zone_no_replacement (args : arguments) (current_instance_id : string)
    (i : instance_info) (w : world) :
  calm w →
  filter (λ z, z ≠ info_az i) (zones (cloud_of w)) = [] →
  replace_instance args current_instance_id (Some i) w
  = (Ok current_instance_id,
     after w (cloud_of w) [Ev DescribeAvailabilityZones true; Ev (Sleep 5) true]).
Proof.
  intros Hcalm Hzones. rewrite (calm_is_after w Hcalm) at 1.
  unfold replace_instance, plan_replacement, get_other_azs, EC2.describe_availability_zones.
  run_calm. cbn [li_az launch_info_of]. rewrite Hzones. by run_calm.
Qed.

Lemma no_other_zone_no_replacement_witness :
  let i := InstanceInfo None "eu-west-1a" "stopped" "ami-1" "t3.small" "subnet-a" in
  (replace_instance Demo.args "i-web" (Some i) (Demo.quiet Lonely.one_zone)).1 = Ok "i-web".
Proof.
  intros i.
  rewrite (no_other_zone_no_replacement Demo.args "i-web" i (Demo.quiet Lonely.one_zone));
    reflexivity.
Defined.

(** ** The plan made without a description *)

(** X14: when the instance could not be described and a plan is made all the
    same, the plan starts from the first listed zone and the first subnet
    EC2 reports in that zone, whatever its VPC, with the built-in image
    [ami-0c02fb55956c7d316] and type [t3.micro]. *)
Theorem plan_without_description (w w' : world) (known : launch_info) (target_az : string) :
  plan_replacement None w = (Ok (Some (known, target_az)), w') →
  ∃ zone s,
    head (zones (cloud_of w)) = Some zone
    ∧ head (filter (λ s, sn_az s = zone) (subnets (cloud_of w))) = Some s
    ∧ known = LaunchInfo zone (sn_id s) "ami-0c02fb55956c7d316" "t3.micro".
Proof.
  unfold plan_replacement. intros H.
  apply bind_ok_inv in H as (k & w1 & Hknown & Hrest).
  apply bind_ok_inv in Hknown as (azs & wa & Ha & Hknown).
  apply api_ok_inv in Ha as (cl & Hb & ->). simplify_eq/=.
  apply bind_ok_inv in Hknown as (z & wb & Hz & Hknown).
  destruct (zones (cloud_of w)) as [|zone zs] eqn:Hzones; simp_run; simp_run.
  apply bind_ok_inv in Hknown as (found & wc & Hf & Hknown).
  apply api_ok_inv in Hf as (cl & Hb & ->). simp_run.
  assert (filter (EC2.matches_filter None z) (subnets (cloud_of w))
          = filter (λ s, sn_az s = z) (subnets (cloud_of w))) as Hfilter.
  { apply list_filter_iff. intros s. unfold EC2.matches_filter. tauto. }
  rewrite Hfilter in Hknown.
  destruct (filter (λ s, sn_az s = z) (subnets (cloud_of w))) as [|s l] eqn:Hs.
  { apply bind_ok_inv in Hknown as (? & ? & ? & ?). by simp_run. }
  simp_run.
  apply bind_ok_inv in Hrest as (others & w2 & Hothers & Hrest).
  destruct others as [|t others]; [by apply bind_ok_inv in Hrest as (? & ? & ? & ?)|].
  simp_run. exists z, s. by rewrite Hs.
Qed.

Lemma plan_without_description_witness :
  ∃ known target_az,
    (plan_replacement None (Demo.quiet Demo.account)).1 = Ok (Some (known, target_az))
    ∧ li_ami_id known = "ami-0c02fb55956c7d316".
Proof.
  destruct (plan_without_description (Demo.quiet Demo.account)
              (exec (plan_replacement None) (Demo.quiet Demo.account))
              (LaunchInfo "eu-west-1a" "subnet-a" default_ami "t3.micro") "eu-west-1b")
    as (zone & s & _ & _ & Hknown).
  - vm_compute. reflexivity.
  - eexists _, _. split; [vm_compute; reflexivity|]. reflexivity.
Defined.
